(** * ga4gh converters: the SAM record transcoder

    A shallow embedding of [ga4gh/converters/converters.py]: the CIGAR code
    table ([SamCigar]), the SAM flag utilities ([SamFlags]), the header and
    target-id builder ([SamConverter]) and the per-record transcoder
    ([SamLine]), followed by the properties the specification states about
    them.

    Conventions of the embedding.
    - Python integers are unbounded: they are [Z], and [&], [|] are [Z.land],
      [Z.lor] (both agree with Python on negative numbers).
    - Text is a [string] holding its UTF-8 bytes, so [.encode('utf8')] of a
      text is the identity.  The module is Python 2 (it uses [long]): there
      [str(...)] of a text encodes it as ASCII and raises
      [UnicodeEncodeError] when a character is outside ASCII.
    - A Python exception is a constructor of [PyExc]; a call that may raise
      returns [PyExc + A].
    - A Python attribute that may hold [None] is an [option], so that the
      [is None] tests of the source are embedded as written.  A protobuf
      record holds a message in [alignment] and in [next_mate_position],
      the one with every field at its default when none was set: such a
      record is in the [Some] branch.
    - [targetIds] is a [collections.defaultdict(int)]: reading a missing key
      yields [0] and stores the key.  The transcoder therefore threads the
      dictionary through every lookup.
    - [pysam.AlignedSegment] is a record of the fields the converter writes;
      an assignment to one of its attributes is a field update.  What pysam
      itself does with a value it is handed (it refuses some, such as a
      CIGAR operation [None] or a mapping quality above 255) is not part of
      the embedding: what is stated about a segment is stated for a call
      that returned one. *)

From Stdlib Require Import ZArith String List Bool Lia.
From Stdlib Require Import Floats.SpecFloat.
From stdpp Require Import gmap strings list fin_maps.

Local Open Scope string_scope.
Local Open Scope Z_scope.

(** ** Python runtime: exceptions and list subscripting *)

Inductive PyExc : Type :=
| AttributeError
| IndexError
| TypeError
| UnicodeEncodeError.

Definition raise {A : Type} (e : PyExc) : PyExc + A := inl e.
Definition ok {A : Type} (x : A) : PyExc + A := inr x.

Definition bindE {A B : Type} (m : PyExc + A) (k : A -> PyExc + B)
  : PyExc + B :=
  match m with
  | inl e => inl e
  | inr x => k x
  end.

(** [l[i]] for a Python list [l] and an integer [i]: a negative index counts
    from the end, and an index that is still out of range raises
    [IndexError]. *)
Definition list_getitem {A : Type} (l : list A) (i : Z) : PyExc + A :=
  let n := Z.of_nat (length l) in
  let j := if i <? 0 then i + n else i in
  if (j <? 0) || (n <=? j) then raise IndexError
  else match nth_error l (Z.to_nat j) with
       | Some x => ok x
       | None => raise IndexError
       end.

(** ** [ga4gh.schemas.protocol]: the messages the converter reads *)

Module protocol.

(** [CigarUnit.Operation]; [OPERATION_UNSPECIFIED] is the enum's zero value. *)
Inductive Operation : Type :=
| OPERATION_UNSPECIFIED
| ALIGNMENT_MATCH
| INSERT
| DELETE
| SKIP
| CLIP_SOFT
| CLIP_HARD
| PAD
| SEQUENCE_MATCH
| SEQUENCE_MISMATCH.

#[global] Instance Operation_eq_dec : EqDecision Operation.
Proof. solve_decision. Defined.

Inductive Strand : Type :=
| STRAND_UNSPECIFIED
| NEG_STRAND
| POS_STRAND.

#[global] Instance Strand_eq_dec : EqDecision Strand.
Proof. solve_decision. Defined.

Module Position.
Record t : Type := Build
  { reference_name : string;
    position : Z;
    strand : Strand }.
End Position.

Module CigarUnit.
Record t : Type := Build
  { operation : Operation;
    operation_length : Z }.
End CigarUnit.

Module LinearAlignment.
Record t : Type := Build
  { position : Position.t;
    mapping_quality : Z;
    cigar : list CigarUnit.t }.
End LinearAlignment.

(** Modelled from the spec: the declaration of [AttributeValue] is not part
    of the converter's source.  The specification's data model gives each
    attribute value as one of integer, float or string. *)
Inductive AttributeValue : Type :=
| int64_value (z : Z)
| double_value (f : spec_float)
| string_value (s : string).

(** The Python object held by the field of an [AttributeValue] that is
    set: an [int] (or [long]), a [float] or a text string. *)
Inductive PyVal : Type :=
| PyInt (z : Z)
| PyFloat (f : spec_float)
| PyStr (s : string).

Definition getValueFromValue (value : AttributeValue) : PyVal :=
  match value with
  | int64_value z => PyInt z
  | double_value f => PyFloat f
  | string_value s => PyStr s
  end.

Module ReadAlignment.
Record t : Type := Build
  { fragment_name : string;
    aligned_sequence : string;
    aligned_quality : list Z;
    alignment : option LinearAlignment.t;
    next_mate_position : option Position.t;
    number_reads : Z;
    improper_placement : bool;
    read_number : Z;
    secondary_alignment : bool;
    failed_vendor_quality_checks : bool;
    duplicate_fragment : bool;
    supplementary_alignment : bool;
    fragment_length : Z;
    attributes : list (string * list AttributeValue) }.
End ReadAlignment.

Module Reference.
Record t : Type := Build
  { name : string;
    length : Z }.
End Reference.

(** Size of a base-128 varint; a negative [int64] takes ten bytes. *)
Definition varint_size (n : Z) : Z :=
  if n <? 0 then 10 else Z.log2 n / 7 + 1.

(** [Position.ByteSize()]: the length of the proto3 encoding, in which a
    field holding its default value takes no space. *)
Definition ByteSize (p : Position.t) : Z :=
  let len := Z.of_nat (String.length (Position.reference_name p)) in
  (if len =? 0 then 0 else 1 + varint_size len + len)
  + (if Position.position p =? 0 then 0
     else 1 + varint_size (Position.position p))
  + (match Position.strand p with
     | STRAND_UNSPECIFIED => 0
     | NEG_STRAND | POS_STRAND => 2
     end).

(** A [Position] message in which no field was set. *)
Definition cleared : Position.t :=
  Position.Build "" 0 STRAND_UNSPECIFIED.

End protocol.

Import protocol.

(** ** [SamCigar] *)

Module SamCigar.

Definition cigarStrings : list Operation :=
  [ ALIGNMENT_MATCH;
    INSERT;
    DELETE;
    SKIP;
    CLIP_SOFT;
    CLIP_HARD;
    PAD;
    SEQUENCE_MATCH;
    SEQUENCE_MISMATCH ].

(** The [for i, cigarString in enumerate(...)] loop of [ga2int], started
    at index [i].  Falling off the end of the loop returns [None]. *)
Fixpoint ga2int_from (i : Z) (l : list Operation) (value : Operation)
  : option Z :=
  match l with
  | [] => None
  | cigarString :: rest =>
      if decide (value = cigarString) then Some i
      else ga2int_from (i + 1) rest value
  end.

Definition ga2int (value : Operation) : option Z :=
  ga2int_from 0 cigarStrings value.

Definition int2ga (value : Z) : PyExc + Operation :=
  list_getitem cigarStrings value.

End SamCigar.

(** ** [SamFlags] *)

Module SamFlags.

Definition READ_PAIRED : Z := 0x1.
Definition READ_PROPER_PAIR : Z := 0x2.
Definition READ_UNMAPPED : Z := 0x4.
Definition MATE_UNMAPPED : Z := 0x8.
Definition READ_REVERSE_STRAND : Z := 0x10.
Definition MATE_REVERSE_STRAND : Z := 0x20.
Definition FIRST_IN_PAIR : Z := 0x40.
Definition SECOND_IN_PAIR : Z := 0x80.
Definition SECONDARY_ALIGNMENT : Z := 0x100.
Definition FAILED_QUALITY_CHECK : Z := 0x200.
Definition DUPLICATE_READ : Z := 0x400.
Definition SUPPLEMENTARY_ALIGNMENT : Z := 0x800.

Definition isFlagSet (flagAttr flag : Z) : bool :=
  Z.land flagAttr flag =? flag.

Definition setFlag (flagAttr flag : Z) : Z :=
  Z.lor flagAttr flag.

(** The twelve flag constants, in the order the class declares them. *)
Definition all_flags : list Z :=
  [ READ_PAIRED; READ_PROPER_PAIR; READ_UNMAPPED; MATE_UNMAPPED;
    READ_REVERSE_STRAND; MATE_REVERSE_STRAND; FIRST_IN_PAIR;
    SECOND_IN_PAIR; SECONDARY_ALIGNMENT; FAILED_QUALITY_CHECK;
    DUPLICATE_READ; SUPPLEMENTARY_ALIGNMENT ].

End SamFlags.


(** ** [pysam.AlignedSegment] *)

Module AlignedSegment.

(** What [SamLine._parseTagValue] hands to pysam for one tag: the list of
    values, one bare number, or an encoded text. *)
Inductive TagValue : Type :=
| TagList (vs : list PyVal)
| TagBare (v : PyVal)
| TagText (s : string).

Record t : Type := Build
  { query_name : string;
    query_sequence : string;
    flag : Z;
    reference_id : Z;
    reference_start : Z;
    mapping_quality : Z;
    cigar : list (option Z * Z);
    next_reference_id : Z;
    next_reference_start : Z;
    template_length : Z;
    query_qualities : list Z;
    tags : list (string * TagValue) }.

(** The reference id pysam gives a segment that is placed on no reference;
    line 192 of the converter writes the same literal for an absent mate. *)
Definition UNMAPPED : Z := -1.

(** [pysam.AlignedSegment()]: no name, no sequence, flag and mapping quality
    zero, and both placements unset. *)
Definition new : t :=
  {| query_name := "";
     query_sequence := "";
     flag := 0;
     reference_id := UNMAPPED;
     reference_start := -1;
     mapping_quality := 0;
     cigar := [];
     next_reference_id := UNMAPPED;
     next_reference_start := -1;
     template_length := 0;
     query_qualities := [];
     tags := [] |}.

Definition set_query_name (v : string) (s : t) : t :=
  Build v (query_sequence s) (flag s) (reference_id s) (reference_start s)
    (mapping_quality s) (cigar s) (next_reference_id s)
    (next_reference_start s) (template_length s) (query_qualities s) (tags s).

Definition set_query_sequence (v : string) (s : t) : t :=
  Build (query_name s) v (flag s) (reference_id s) (reference_start s)
    (mapping_quality s) (cigar s) (next_reference_id s)
    (next_reference_start s) (template_length s) (query_qualities s) (tags s).

Definition set_flag (v : Z) (s : t) : t :=
  Build (query_name s) (query_sequence s) v (reference_id s)
    (reference_start s) (mapping_quality s) (cigar s) (next_reference_id s)
    (next_reference_start s) (template_length s) (query_qualities s) (tags s).

Definition set_reference_id (v : Z) (s : t) : t :=
  Build (query_name s) (query_sequence s) (flag s) v (reference_start s)
    (mapping_quality s) (cigar s) (next_reference_id s)
    (next_reference_start s) (template_length s) (query_qualities s) (tags s).

Definition set_reference_start (v : Z) (s : t) : t :=
  Build (query_name s) (query_sequence s) (flag s) (reference_id s) v
    (mapping_quality s) (cigar s) (next_reference_id s)
    (next_reference_start s) (template_length s) (query_qualities s) (tags s).

Definition set_mapping_quality (v : Z) (s : t) : t :=
  Build (query_name s) (query_sequence s) (flag s) (reference_id s)
    (reference_start s) v (cigar s) (next_reference_id s)
    (next_reference_start s) (template_length s) (query_qualities s) (tags s).

Definition set_cigar (v : list (option Z * Z)) (s : t) : t :=
  Build (query_name s) (query_sequence s) (flag s) (reference_id s)
    (reference_start s) (mapping_quality s) v (next_reference_id s)
    (next_reference_start s) (template_length s) (query_qualities s) (tags s).

Definition set_next_reference_id (v : Z) (s : t) : t :=
  Build (query_name s) (query_sequence s) (flag s) (reference_id s)
    (reference_start s) (mapping_quality s) (cigar s) v
    (next_reference_start s) (template_length s) (query_qualities s) (tags s).

Definition set_next_reference_start (v : Z) (s : t) : t :=
  Build (query_name s) (query_sequence s) (flag s) (reference_id s)
    (reference_start s) (mapping_quality s) (cigar s) (next_reference_id s)
    v (template_length s) (query_qualities s) (tags s).

Definition set_template_length (v : Z) (s : t) : t :=
  Build (query_name s) (query_sequence s) (flag s) (reference_id s)
    (reference_start s) (mapping_quality s) (cigar s) (next_reference_id s)
    (next_reference_start s) v (query_qualities s) (tags s).

Definition set_query_qualities (v : list Z) (s : t) : t :=
  Build (query_name s) (query_sequence s) (flag s) (reference_id s)
    (reference_start s) (mapping_quality s) (cigar s) (next_reference_id s)
    (next_reference_start s) (template_length s) v (tags s).

Definition set_tags (v : list (string * TagValue)) (s : t) : t :=
  Build (query_name s) (query_sequence s) (flag s) (reference_id s)
    (reference_start s) (mapping_quality s) (cigar s) (next_reference_id s)
    (next_reference_start s) (template_length s) (query_qualities s) v.

End AlignedSegment.

(** ** [collections.defaultdict(int)] and the transcoder's monad *)

(** [d[k]] on a [defaultdict(int)]: a missing key is first stored with the
    value [int() = 0]. *)
Definition defaultdict_getitem (k : string) (d : gmap string Z)
  : Z * gmap string Z :=
  match d !! k with
  | Some v => (v, d)
  | None => (0, <[k := 0]> d)
  end.

(** A computation that reads and updates the shared [targetIds] dictionary
    and may raise. *)
Definition M (A : Type) : Type := gmap string Z -> PyExc + (A * gmap string Z).

Definition retM {A : Type} (x : A) : M A := fun d => inr (x, d).

Definition bindM {A B : Type} (m : M A) (k : A -> M B) : M B :=
  fun d =>
    match m d with
    | inl e => inl e
    | inr (x, d') => k x d'
    end.

Definition liftE {A : Type} (r : PyExc + A) : M A :=
  fun d =>
    match r with
    | inl e => inl e
    | inr x => inr (x, d)
    end.

Definition targetIds_getitem (k : string) : M Z :=
  fun d => inr (defaultdict_getitem k d).

Notation "'let!' x ':=' m 'in' k" := (bindM m (fun x => k))
  (at level 10, x name, m at level 100, k at level 200).
Notation "'try!' x ':=' m 'in' k" := (bindE m (fun x => k))
  (at level 10, x name, m at level 100, k at level 200).

(** ** [SamConverter]: header and target ids *)

Module SamConverter.

Record SQLine : Type := BuildSQ
  { LN : Z;
    SN : string }.

(** The header dictionary: key ['HD'] holds the version, key ['SQ'], when
    present, the list of sequence lines. *)
Record Header : Type := BuildHeader
  { HD_VN : string;
    SQ : option (list SQLine) }.

Definition _getHeader (reference : Reference.t) : Header :=
  {| HD_VN := "1.0";
     SQ := Some [ {| LN := Reference.length reference;
                     SN := Reference.name reference |} ] |}.

(** The [for headerLine in headerLines] loop of [_getTargetIds]. *)
Fixpoint _getTargetIds_loop (headerLines : list SQLine) (targetId : Z)
  (targetIds : gmap string Z) : gmap string Z :=
  match headerLines with
  | [] => targetIds
  | headerLine :: rest =>
      _getTargetIds_loop rest (targetId + 1)
        (<[SN headerLine := targetId]> targetIds)
  end.

Definition _getTargetIds (header : Header) : gmap string Z :=
  match SQ header with
  | Some headerLines => _getTargetIds_loop headerLines 0 ∅
  | None => ∅
  end.

End SamConverter.

(** ** [SamLine]: one record to one segment *)

Module SamLine.

Import SamFlags.
Import ReadAlignment.

(** [.encode(cls._encoding)]: text is already held as its UTF-8 bytes (and
    the bytes of an ASCII [str] are their own UTF-8 encoding). *)
Definition encode (s : string) : string := s.

(** [x is None] *)
Definition is_None {A : Type} (x : option A) : bool :=
  match x with
  | None => true
  | Some _ => false
  end.

(** [x.ByteSize()] for an attribute [x] that may be [None]: a method lookup
    on [None] raises [AttributeError]. *)
Definition call_ByteSize (x : option Position.t) : PyExc + Z :=
  match x with
  | None => raise AttributeError
  | Some p => ok (ByteSize p)
  end.

(** [x is not None and x.strand == protocol.NEG_STRAND] *)
Definition is_neg_strand (x : option Position.t) : bool :=
  match x with
  | None => false
  | Some p => bool_decide (Position.strand p = NEG_STRAND)
  end.

Definition toSamFlag (read : ReadAlignment.t) : PyExc + Z :=
  let flag := 0 in
  let flag :=
    if number_reads read =? 2 then setFlag flag READ_PAIRED else flag in
  let flag :=
    if negb (improper_placement read)
    then setFlag flag READ_PROPER_PAIR else flag in
  let flag :=
    if is_None (alignment read)
    then setFlag flag READ_UNMAPPED else flag in
  try! size := call_ByteSize (next_mate_position read) in
  let flag :=
    if size =? 0 then setFlag flag MATE_UNMAPPED else flag in
  let flag :=
    if is_neg_strand (option_map LinearAlignment.position (alignment read))
    then setFlag flag READ_REVERSE_STRAND else flag in
  let flag :=
    if is_neg_strand (next_mate_position read)
    then setFlag flag MATE_REVERSE_STRAND else flag in
  let flag :=
    if read_number read =? -1 then flag
    else if read_number read =? 0 then setFlag flag FIRST_IN_PAIR
    else if read_number read =? 1 then setFlag flag SECOND_IN_PAIR
    else setFlag (setFlag flag FIRST_IN_PAIR) SECOND_IN_PAIR in
  let flag :=
    if secondary_alignment read
    then setFlag flag SECONDARY_ALIGNMENT else flag in
  let flag :=
    if failed_vendor_quality_checks read
    then setFlag flag FAILED_QUALITY_CHECK else flag in
  let flag :=
    if duplicate_fragment read
    then setFlag flag DUPLICATE_READ else flag in
  let flag :=
    if supplementary_alignment read
    then setFlag flag SUPPLEMENTARY_ALIGNMENT else flag in
  ok flag.

(** One CIGAR tuple; its operation is [None] when [ga2int] found no code. *)
Definition toCigarTuple (gaCigarUnit : CigarUnit.t) : option Z * Z :=
  (SamCigar.ga2int (CigarUnit.operation gaCigarUnit),
   CigarUnit.operation_length gaCigarUnit).

Definition toCigar (read : ReadAlignment.t) : list (option Z * Z) :=
  match alignment read with
  | Some a => map toCigarTuple (LinearAlignment.cigar a)
  | None => []
  end.

(** [isinstance(v, (int, float, long))] *)
Definition is_number (v : PyVal) : bool :=
  match v with
  | PyInt _ | PyFloat _ => true
  | PyStr _ => false
  end.

(** Whether every character of a text is ASCII (its byte is below 128). *)
Fixpoint is_ascii (text : string) : bool :=
  match text with
  | EmptyString => true
  | String c rest => (Ascii.nat_of_ascii c <? 128)%nat && is_ascii rest
  end.

(** [str(text)] for a text, in Python 2: the text encoded as ASCII. *)
Definition str_of_text (text : string) : PyExc + string :=
  if is_ascii text then ok text else raise UnicodeEncodeError.

(** [value[0]] decides the second and third branch: a number is handed on
    as it is; a text goes through [str(...)] and [.encode('utf8')]. *)
Definition _parseTagValue (value : list AttributeValue)
  : PyExc + AlignedSegment.TagValue :=
  if 1 <? Z.of_nat (length value)
  then ok (AlignedSegment.TagList (map getValueFromValue value))
  else
    try! v0 := list_getitem value 0 in
    match getValueFromValue v0 with
    | (PyInt _ | PyFloat _) as number => ok (AlignedSegment.TagBare number)
    | PyStr text =>
        try! s := str_of_text text in
        ok (AlignedSegment.TagText (encode s))
    end.

(** The [for tag, values in ...items()] loop of [toTags]. *)
Fixpoint toTags_loop (items : list (string * list AttributeValue))
  : PyExc + list (string * AlignedSegment.TagValue) :=
  match items with
  | [] => ok []
  | (tag, values) :: rest =>
      try! val := _parseTagValue values in
      try! tags := toTags_loop rest in
      ok ((encode tag, val) :: tags)
  end.

Definition toTags (read : ReadAlignment.t)
  : PyExc + list (string * AlignedSegment.TagValue) :=
  toTags_loop (attributes read).

Definition toAlignedSegment (read : ReadAlignment.t) : M AlignedSegment.t :=
  let ret := AlignedSegment.new in
  let ret := AlignedSegment.set_query_name (encode (fragment_name read)) ret in
  let ret :=
    AlignedSegment.set_query_sequence (encode (aligned_sequence read)) ret in
  let! flag := liftE (toSamFlag read) in
  let ret := AlignedSegment.set_flag flag ret in
  let! ret :=
    match alignment read with
    | Some a =>
        let refName := Position.reference_name (LinearAlignment.position a) in
        let! targetId := targetIds_getitem refName in
        retM (AlignedSegment.set_reference_id targetId ret)
    | None => retM ret
    end in
  let ret :=
    match alignment read with
    | None => AlignedSegment.set_reference_start 0 ret
    | Some a =>
        AlignedSegment.set_reference_start
          (Position.position (LinearAlignment.position a)) ret
    end in
  let ret :=
    match alignment read with
    | Some a =>
        AlignedSegment.set_mapping_quality
          (LinearAlignment.mapping_quality a) ret
    | None => ret
    end in
  let ret := AlignedSegment.set_cigar (toCigar read) ret in
  let! ret :=
    match next_mate_position read with
    | None => retM (AlignedSegment.set_next_reference_id (-1) ret)
    | Some m =>
        let nextRefName := Position.reference_name m in
        let! targetId := targetIds_getitem nextRefName in
        retM (AlignedSegment.set_next_reference_id targetId ret)
    end in
  let ret :=
    match next_mate_position read with
    | None => AlignedSegment.set_next_reference_start (-1) ret
    | Some m =>
        AlignedSegment.set_next_reference_start (Position.position m) ret
    end in
  let ret := AlignedSegment.set_template_length (fragment_length read) ret in
  let ret := AlignedSegment.set_query_qualities (aligned_quality read) ret in
  let! tags := liftE (toTags read) in
  retM (AlignedSegment.set_tags tags ret).

End SamLine.

(** ** [SamConverter.convert]: the driving loop *)

(** The [for read in iterator] loop: every record is transcoded against the
    one shared [targetIds] and handed to the sink, in order. *)
Fixpoint convert_loop (reads : list ReadAlignment.t)
  : M (list AlignedSegment.t) :=
  match reads with
  | [] => retM []
  | read :: rest =>
      let! alignedSegment := SamLine.toAlignedSegment read in
      let! written := convert_loop rest in
      retM (alignedSegment :: written)
  end.

(** [convert], with the reference the client returned and the records its
    search yields as arguments; the result is what the output file receives:
    the header and the segments written. *)
Definition convert (reference : Reference.t) (reads : list ReadAlignment.t)
  : PyExc + (SamConverter.Header * list AlignedSegment.t) :=
  let header := SamConverter._getHeader reference in
  let targetIds := SamConverter._getTargetIds header in
  try! written := convert_loop reads targetIds in
  ok (header, fst written).

(** ** [SamConverter.convert] with its output file *)

Module AlignmentFile.

(** A [pysam.AlignmentFile] opened for writing: what it was opened with,
    the segments written to it so far, and whether [close()] was called. *)
Record t : Type := Build
  { fileString : string;
    flags : string;
    header : SamConverter.Header;
    written : list AlignedSegment.t;
    closed : bool }.

Definition open (fileString flags : string) (header : SamConverter.Header)
  : t :=
  Build fileString flags header [] false.

Definition write (alignedSegment : AlignedSegment.t) (f : t) : t :=
  Build (fileString f) (flags f) (header f) (written f ++ [alignedSegment])
    (closed f).

Definition close (f : t) : t :=
  Build (fileString f) (flags f) (header f) (written f) true.

End AlignmentFile.

(** The [for read in iterator] loop on the open file.  An exception of the
    transcoder leaves the loop at once, with the file as it then is. *)
Fixpoint convert_write_loop (reads : list ReadAlignment.t)
  (targetIds : gmap string Z) (alignmentFile : AlignmentFile.t)
  : AlignmentFile.t * option PyExc :=
  match reads with
  | [] => (alignmentFile, None)
  | read :: rest =>
      match SamLine.toAlignedSegment read targetIds with
      | inl e => (alignmentFile, Some e)
      | inr (alignedSegment, targetIds') =>
          convert_write_loop rest targetIds'
            (AlignmentFile.write alignedSegment alignmentFile)
      end
  end.

(** [convert] as the file sees it: the converter's output name and mode,
    the reference and the records are arguments; the result is the file and
    the exception that ended the call, if any.  [close()] is only reached
    when the loop ends normally. *)
Definition convert_file (outputFileName : option string)
  (binaryOutput : bool) (reference : Reference.t)
  (reads : list ReadAlignment.t) : AlignmentFile.t * option PyExc :=
  let header := SamConverter._getHeader reference in
  let targetIds := SamConverter._getTargetIds header in
  let flags := if binaryOutput then "wb" else "wh" in
  let fileString := "-" in
  let fileString :=
    match outputFileName with
    | Some name => name
    | None => fileString
    end in
  let alignmentFile := AlignmentFile.open fileString flags header in
  match convert_write_loop reads targetIds alignmentFile with
  | (alignmentFile, None) => (AlignmentFile.close alignmentFile, None)
  | (alignmentFile, Some e) => (alignmentFile, Some e)
  end.

(** ** [VcfConverter] *)

Module VcfConverter.

Section Stub.

(** The metadata entries of a variant set and the variants are printed as
    they are; their types stay abstract. *)
Variables (Metadata Variant : Type).

(** The [VariantSet] message: its text fields are [id] and [dataset_id]. *)
Record VariantSet : Type := BuildVariantSet
  { id : string;
    dataset_id : string;
    metadata : list Metadata }.

(** [getattr(variantSet, name)] for a text attribute: a name that is no
    field of the message raises [AttributeError]. *)
Definition getattr_text (variantSet : VariantSet) (name : string)
  : PyExc + string :=
  if String.eqb name "id" then ok (id variantSet)
  else if String.eqb name "dataset_id" then ok (dataset_id variantSet)
  else raise AttributeError.

(** An argument of a [print] call. *)
Inductive Printed : Type :=
| Text (s : string)
| MetadataObject (m : Metadata)
| VariantObject (v : Variant).

(** [print(a, b, ...)]: one more line on standard output, holding the
    arguments in order. *)
Definition print (args : list Printed) (stdout : list (list Printed))
  : list (list Printed) :=
  stdout ++ [args].

(** The one-character text ["\t"]. *)
Definition tab : string := String (Ascii.ascii_of_nat 9) EmptyString.

(** The [for metadata in variantSet.metadata] loop of [_writeHeader]. *)
Fixpoint _writeHeader_loop (metadata : list Metadata)
  (stdout : list (list Printed)) : list (list Printed) :=
  match metadata with
  | [] => stdout
  | m :: rest =>
      _writeHeader_loop rest (print [Text tab; MetadataObject m] stdout)
  end.

(** The result is standard output and the exception that ended the call,
    if any.  The arguments of a [print] are read before it prints. *)
Definition _writeHeader (variantSet : VariantSet)
  (stdout : list (list Printed)) : list (list Printed) * option PyExc :=
  match getattr_text variantSet "id" with
  | inl e => (stdout, Some e)
  | inr id_ =>
      let stdout := print [Text "ID = "; Text id_] stdout in
      match getattr_text variantSet "datasetId" with
      | inl e => (stdout, Some e)
      | inr datasetId =>
          let stdout := print [Text "Dataset ID = "; Text datasetId] stdout in
          let stdout := print [Text "Metadata = "] stdout in
          (_writeHeader_loop (metadata variantSet) stdout, None)
      end
  end.

(** [for variant in self._objectIterator: print(variant); break]: the
    result is what is left of the iterator, and standard output. *)
Definition _writeBody (objectIterator : list Variant)
  (stdout : list (list Printed)) : list Variant * list (list Printed) :=
  match objectIterator with
  | [] => ([], stdout)
  | variant :: rest => (rest, print [VariantObject variant] stdout)
  end.

(** The result is what is left of the iterator, standard output, and the
    exception that ended the call, if any. *)
Definition convert (container : VariantSet) (objectIterator : list Variant)
  (stdout : list (list Printed))
  : list Variant * list (list Printed) * option PyExc :=
  match _writeHeader container stdout with
  | (stdout, Some e) => (objectIterator, stdout, Some e)
  | (stdout, None) =>
      let (rest, stdout) := _writeBody objectIterator stdout in
      (rest, stdout, None)
  end.

End Stub.

End VcfConverter.

(** * Derived definitions used by the statements *)

(** [int2ga(ga2int(k))]: the code [ga2int] returns is handed to [int2ga];
    subscripting a list with [None] is a [TypeError]. *)
Definition int2ga_of_ga2int (k : Operation) : PyExc + Operation :=
  match SamCigar.ga2int k with
  | Some code => SamCigar.int2ga code
  | None => raise TypeError
  end.

(** The value [d[k]] reads from a [defaultdict(int)]. *)
Definition defaultdict_value (k : string) (d : gmap string Z) : Z :=
  default 0 (d !! k).

(** ** The flag computation, folded

    [toSamFlag] is a chain of guarded [setFlag] calls.  [flag_of] is the same
    chain written as nested applications, for a record whose mate position
    is the message [m]. *)

Definition cond_set (c : bool) (bit flag : Z) : Z :=
  if c then SamFlags.setFlag flag bit else flag.

Definition pair_member (read_number flag : Z) : Z :=
  if read_number =? -1 then flag
  else if read_number =? 0 then SamFlags.setFlag flag SamFlags.FIRST_IN_PAIR
  else if read_number =? 1 then SamFlags.setFlag flag SamFlags.SECOND_IN_PAIR
  else SamFlags.setFlag (SamFlags.setFlag flag SamFlags.FIRST_IN_PAIR)
         SamFlags.SECOND_IN_PAIR.

Definition flag_of (read : ReadAlignment.t) (m : Position.t) : Z :=
  let alignment := ReadAlignment.alignment read in
  cond_set (ReadAlignment.supplementary_alignment read)
    SamFlags.SUPPLEMENTARY_ALIGNMENT
  (cond_set (ReadAlignment.duplicate_fragment read) SamFlags.DUPLICATE_READ
  (cond_set (ReadAlignment.failed_vendor_quality_checks read)
     SamFlags.FAILED_QUALITY_CHECK
  (cond_set (ReadAlignment.secondary_alignment read)
     SamFlags.SECONDARY_ALIGNMENT
  (pair_member (ReadAlignment.read_number read)
  (cond_set (SamLine.is_neg_strand (Some m)) SamFlags.MATE_REVERSE_STRAND
  (cond_set (SamLine.is_neg_strand
               (option_map LinearAlignment.position alignment))
     SamFlags.READ_REVERSE_STRAND
  (cond_set (ByteSize m =? 0) SamFlags.MATE_UNMAPPED
  (cond_set (SamLine.is_None alignment) SamFlags.READ_UNMAPPED
  (cond_set (negb (ReadAlignment.improper_placement read))
     SamFlags.READ_PROPER_PAIR
  (cond_set (ReadAlignment.number_reads read =? 2)
     SamFlags.READ_PAIRED 0)))))))))).

(** Bit [n] of the flag, read off the record. *)
Definition flag_bit (read : ReadAlignment.t) (m : Position.t) (n : Z) : bool :=
  let alignment := ReadAlignment.alignment read in
  let rn := ReadAlignment.read_number read in
  (ReadAlignment.number_reads read =? 2) && Z.testbit SamFlags.READ_PAIRED n
  || negb (ReadAlignment.improper_placement read)
     && Z.testbit SamFlags.READ_PROPER_PAIR n
  || SamLine.is_None alignment && Z.testbit SamFlags.READ_UNMAPPED n
  || (ByteSize m =? 0) && Z.testbit SamFlags.MATE_UNMAPPED n
  || SamLine.is_neg_strand (option_map LinearAlignment.position alignment)
     && Z.testbit SamFlags.READ_REVERSE_STRAND n
  || SamLine.is_neg_strand (Some m)
     && Z.testbit SamFlags.MATE_REVERSE_STRAND n
  || negb (rn =? -1) && negb (rn =? 1) && Z.testbit SamFlags.FIRST_IN_PAIR n
  || negb (rn =? -1) && negb (rn =? 0) && Z.testbit SamFlags.SECOND_IN_PAIR n
  || ReadAlignment.secondary_alignment read
     && Z.testbit SamFlags.SECONDARY_ALIGNMENT n
  || ReadAlignment.failed_vendor_quality_checks read
     && Z.testbit SamFlags.FAILED_QUALITY_CHECK n
  || ReadAlignment.duplicate_fragment read
     && Z.testbit SamFlags.DUPLICATE_READ n
  || ReadAlignment.supplementary_alignment read
     && Z.testbit SamFlags.SUPPLEMENTARY_ALIGNMENT n.

(** The value lists [_parseTagValue] accepts: at least one value, and a
    single text must be ASCII. *)
Definition tag_values_ok (values : list AttributeValue) : bool :=
  match values with
  | [] => false
  | [string_value text] => SamLine.is_ascii text
  | _ => true
  end.

(** Every tag of the record has a value list [_parseTagValue] accepts. *)
Definition tags_ok (read : ReadAlignment.t) : Prop :=
  Forall (fun item : string * list AttributeValue =>
            tag_values_ok (snd item) = true)
    (ReadAlignment.attributes read).

(** The tag encoding in the specification's words: more than one value,
    the whole sequence in order; one numeric value, the bare number; one
    value that is not numeric, its text. *)
Definition spec_tag_value (values : list AttributeValue)
  (out : AlignedSegment.TagValue) : Prop :=
  ((1 < length values)%nat ->
   out = AlignedSegment.TagList (map getValueFromValue values))
  /\ (forall v, values = [v] ->
        SamLine.is_number (getValueFromValue v) = true ->
        out = AlignedSegment.TagBare (getValueFromValue v))
  /\ (forall v, values = [v] ->
        SamLine.is_number (getValueFromValue v) = false ->
        exists text, getValueFromValue v = PyStr text
                     /\ out = AlignedSegment.TagText text).

(** ** Scenario records *)

Definition chr1 : Reference.t :=
  {| Reference.name := "chr1"; Reference.length := 1000 |}.

Definition chr1_targetIds : gmap string Z :=
  SamConverter._getTargetIds (SamConverter._getHeader chr1).

(** A paired, proper-pair record named ["r1"] with sequence ["ACGT"],
    fragment length 150 and every boolean field false. *)
Definition paired_read (alignment : option LinearAlignment.t)
  (next_mate_position : option Position.t) (read_number : Z)
  : ReadAlignment.t :=
  {| ReadAlignment.fragment_name := "r1";
     ReadAlignment.aligned_sequence := "ACGT";
     ReadAlignment.aligned_quality := [];
     ReadAlignment.alignment := alignment;
     ReadAlignment.next_mate_position := next_mate_position;
     ReadAlignment.number_reads := 2;
     ReadAlignment.improper_placement := false;
     ReadAlignment.read_number := read_number;
     ReadAlignment.secondary_alignment := false;
     ReadAlignment.failed_vendor_quality_checks := false;
     ReadAlignment.duplicate_fragment := false;
     ReadAlignment.supplementary_alignment := false;
     ReadAlignment.fragment_length := 150;
     ReadAlignment.attributes := [] |}.

(** A forward-strand alignment at [position] of [reference_name], mapping
    quality 60, CIGAR [4M]. *)
Definition match4_at (reference_name : string) (position : Z)
  : LinearAlignment.t :=
  {| LinearAlignment.position :=
       Position.Build reference_name position POS_STRAND;
     LinearAlignment.mapping_quality := 60;
     LinearAlignment.cigar := [ CigarUnit.Build ALIGNMENT_MATCH 4 ] |}.

(** The end-to-end record: aligned at [chr1:100], mate at [chr1:200], first
    in pair. *)
Definition scenario_read : ReadAlignment.t :=
  paired_read (Some (match4_at "chr1" 100))
    (Some (Position.Build "chr1" 200 POS_STRAND)) 0.

(** No alignment and no mate position. *)
Definition unmapped_read : ReadAlignment.t := paired_read None None (-1).

(** The mate position is present and cleared. *)
Definition cleared_mate_read : ReadAlignment.t :=
  paired_read (Some (match4_at "chr1" 100)) (Some cleared) 0.

(** [read_number = 2]. *)
Definition both_members_read : ReadAlignment.t :=
  paired_read (Some (match4_at "chr1" 100))
    (Some (Position.Build "chr1" 200 POS_STRAND)) 2.

(** The alignment and the mate name references the header does not list. *)
Definition unknown_reference_read : ReadAlignment.t :=
  paired_read (Some (match4_at "chrX" 100))
    (Some (Position.Build "chrY" 200 POS_STRAND)) 0.

(** ** Definitions for the statements about whole runs *)

(** Two dictionaries that answer every [d[k]] alike. *)
Definition same_values (d d' : gmap string Z) : Prop :=
  forall k, defaultdict_value k d = defaultdict_value k d'.

(** The sequence names of a header, in order. *)
Definition header_names (header : SamConverter.Header) : list string :=
  match SamConverter.SQ header with
  | Some headerLines => map SamConverter.SN headerLines
  | None => []
  end.

(** ** More scenario data *)

(** A header whose first and third sequence line carry the same name. *)
Definition two_chr1_header : SamConverter.Header :=
  {| SamConverter.HD_VN := "1.0";
     SamConverter.SQ :=
       Some [ SamConverter.BuildSQ 10 "chr1";
              SamConverter.BuildSQ 20 "chr2";
              SamConverter.BuildSQ 30 "chr1" ] |}.

(** A header with two sequences. *)
Definition two_sequence_header : SamConverter.Header :=
  {| SamConverter.HD_VN := "1.0";
     SamConverter.SQ :=
       Some [ SamConverter.BuildSQ 10 "chr1";
              SamConverter.BuildSQ 20 "chr2" ] |}.

(** An unpaired record with its alignment and its mate position unset,
    whose second tag has no value. *)
Definition valueless_tag_read : ReadAlignment.t :=
  ReadAlignment.Build "r1" "ACGT" []
    (Some (LinearAlignment.Build cleared 0 [])) (Some cleared)
    1 false (-1) false false false false 0
    [("NM", [int64_value 1]); ("XX", [])].


(** A text with a character outside ASCII: the two UTF-8 bytes of
    U+00E9. *)
Definition non_ascii_text : string :=
  String (Ascii.ascii_of_nat 195) (String (Ascii.ascii_of_nat 169) EmptyString).

(** A record like the end-to-end one, with one tag whose single value is
    that text. *)
Definition non_ascii_tag_read : ReadAlignment.t :=
  ReadAlignment.Build "r1" "ACGT" []
    (Some (match4_at "chr1" 100))
    (Some (Position.Build "chr1" 200 POS_STRAND))
    2 false 0 false false false false 150
    [("XA", [string_value non_ascii_text])].

(** The file after the segments [segs] were written to it. *)
Definition written_to (f : AlignmentFile.t) (segs : list AlignedSegment.t)
  : AlignmentFile.t :=
  AlignmentFile.Build (AlignmentFile.fileString f) (AlignmentFile.flags f)
    (AlignmentFile.header f) (AlignmentFile.written f ++ segs)
    (AlignmentFile.closed f).

(** * Properties *)

(** ** Python list subscripting *)

Section ListGetitem.

Context {A : Type}.
Implicit Types (l : list A) (i : Z).

Lemma list_getitem_above l i :
  Z.of_nat (length l) <= i -> list_getitem l i = raise IndexError.
Proof.
  intros Hi. unfold list_getitem. cbv zeta.
  destruct (i <? 0) eqn:Hneg; [apply Z.ltb_lt in Hneg; lia|].
  replace (Z.of_nat (length l) <=? i) with true
    by (symmetry; apply Z.leb_le; lia).
  now rewrite orb_true_r.
Qed.

Lemma list_getitem_below l i :
  i < - Z.of_nat (length l) -> list_getitem l i = raise IndexError.
Proof.
  intros Hi. unfold list_getitem. cbv zeta.
  replace (i <? 0) with true by (symmetry; apply Z.ltb_lt; lia).
  replace (i + Z.of_nat (length l) <? 0) with true
    by (symmetry; apply Z.ltb_lt; lia).
  reflexivity.
Qed.

Lemma list_getitem_negative l i :
  - Z.of_nat (length l) <= i < 0 ->
  list_getitem l i = list_getitem l (i + Z.of_nat (length l)).
Proof.
  intros Hi. unfold list_getitem. cbv zeta.
  destruct (i <? 0) eqn:Hneg; [|apply Z.ltb_ge in Hneg; lia].
  destruct (i + Z.of_nat (length l) <? 0) eqn:Hwrap;
    [apply Z.ltb_lt in Hwrap; lia|].
  cbv beta iota. now rewrite Hwrap.
Qed.

Lemma list_getitem_head (x : A) l : list_getitem (x :: l) 0 = ok x.
Proof.
  unfold list_getitem. cbv zeta. cbn [length]. rewrite Nat2Z.inj_succ.
  replace (0 <? 0) with false by reflexivity. cbn [orb].
  replace (Z.succ (Z.of_nat (length l)) <=? 0) with false
    by (symmetry; apply Z.leb_gt; lia).
  reflexivity.
Qed.

End ListGetitem.

(** ** The CIGAR code table *)

(** The enumeration loop started at [i] only returns indices from [i] on. *)
Lemma ga2int_from_lower (l : list Operation) :
  forall i k code, SamCigar.ga2int_from i l k = Some code -> i <= code.
Proof.
  induction l as [|c l IH]; intros i k code H; cbn in H; [discriminate|].
  destruct (decide (k = c)).
  - injection H as <-. lia.
  - apply IH in H. lia.
Qed.

(** [ga2int] finds a code exactly for the operations of the table. *)
Lemma ga2int_None_iff (k : Operation) :
  SamCigar.ga2int k = None <-> k = OPERATION_UNSPECIFIED.
Proof. split; [destruct k; cbv; congruence | intros ->; reflexivity]. Qed.

(** C3: each of the nine operation kinds of the table round-trips through
    its code, [int2ga(ga2int(k)) == k], and [ga2int] assigns the SAM codes
    0=M, 1=I, 2=D, 3=N, 4=S, 5=H, 6=P, 7==, 8=X. *)
Theorem C3_cigar_round_trip :
  length SamCigar.cigarStrings = 9%nat
  /\ NoDup SamCigar.cigarStrings
  /\ Forall (fun k => int2ga_of_ga2int k = ok k) SamCigar.cigarStrings
  /\ SamCigar.ga2int ALIGNMENT_MATCH = Some 0
  /\ SamCigar.ga2int INSERT = Some 1
  /\ SamCigar.ga2int DELETE = Some 2
  /\ SamCigar.ga2int SKIP = Some 3
  /\ SamCigar.ga2int CLIP_SOFT = Some 4
  /\ SamCigar.ga2int CLIP_HARD = Some 5
  /\ SamCigar.ga2int PAD = Some 6
  /\ SamCigar.ga2int SEQUENCE_MATCH = Some 7
  /\ SamCigar.ga2int SEQUENCE_MISMATCH = Some 8.
Proof.
  split; [reflexivity|]. split.
  - unfold SamCigar.cigarStrings.
    repeat (constructor; [rewrite list_elem_of_In; cbn; intuition discriminate|]).
    constructor.
  - split; [|repeat split; reflexivity].
    unfold SamCigar.cigarStrings.
    repeat (constructor; [reflexivity|]). constructor.
Qed.

(** C4, as stated, fails: code [-1] is outside [0,8] and [int2ga] returns
    the last operation of the table instead of raising. *)
Lemma C4_negative_code_counterexample :
  ~ (-1 >= 0 /\ -1 <= 8)
  /\ SamCigar.int2ga (-1) = ok SEQUENCE_MISMATCH
  /\ SamCigar.int2ga (-1) <> raise IndexError.
Proof. split; [lia|]. split; [reflexivity | discriminate]. Qed.

(** C4, amended: [int2ga] raises [IndexError] exactly for the codes below
    [-9] or above [8]; a code from [-9] to [-1] counts from the end of the
    table and returns the operation of code [value + 9]. *)
Theorem C4_int2ga_out_of_range (value : Z) :
  (SamCigar.int2ga value = raise IndexError <-> value < -9 \/ 8 < value)
  /\ (-9 <= value < 0 ->
      SamCigar.int2ga value = SamCigar.int2ga (value + 9)).
Proof.
  split; [split|].
  - intros H.
    destruct (Z_lt_dec value (-9)) as [|Hlo]; [now left|].
    destruct (Z_lt_dec 8 value) as [|Hhi]; [now right|].
    exfalso.
    assert (Hcases : value = -9 \/ value = -8 \/ value = -7 \/ value = -6
                     \/ value = -5 \/ value = -4 \/ value = -3 \/ value = -2
                     \/ value = -1 \/ value = 0 \/ value = 1 \/ value = 2
                     \/ value = 3 \/ value = 4 \/ value = 5 \/ value = 6
                     \/ value = 7 \/ value = 8) by lia.
    repeat (destruct Hcases as [-> | Hcases]; [discriminate H|]).
    subst value. discriminate H.
  - intros [Hlo | Hhi]; unfold SamCigar.int2ga.
    + apply list_getitem_below. cbn. lia.
    + apply list_getitem_above. cbn. lia.
  - intros Hr. unfold SamCigar.int2ga.
    apply (list_getitem_negative SamCigar.cigarStrings). cbn. lia.
Qed.

Lemma C4_int2ga_out_of_range_witness :
  (8 < 9) /\ SamCigar.int2ga 9 = raise IndexError
  /\ (-9 <= -9 < 0) /\ SamCigar.int2ga (-9) = SamCigar.int2ga 0.
Proof.
  split; [lia|]. split.
  - apply (proj1 (C4_int2ga_out_of_range 9)). right. lia.
  - split; [lia|]. apply (proj2 (C4_int2ga_out_of_range (-9))). lia.
Defined.

(** ** The flag utilities *)

Section FlagBits.

Import SamFlags.

Lemma testbit_setFlag (flagAttr flag n : Z) :
  Z.testbit (setFlag flagAttr flag) n
  = Z.testbit flagAttr n || Z.testbit flag n.
Proof. unfold setFlag. apply Z.lor_spec. Qed.

(** [isFlagSet] holds exactly when every bit of [flag] is in [flagAttr]. *)
Lemma isFlagSet_spec (flagAttr flag : Z) :
  isFlagSet flagAttr flag = true
  <-> forall n, 0 <= n -> Z.testbit flag n = true ->
                Z.testbit flagAttr n = true.
Proof.
  unfold isFlagSet. rewrite Z.eqb_eq. split.
  - intros H n _ Hbit. rewrite <- H, Z.land_spec in Hbit.
    now apply andb_true_iff in Hbit.
  - intros H. apply Z.bits_inj'. intros n Hn. rewrite Z.land_spec.
    destruct (Z.testbit flag n) eqn:Hbit.
    + now rewrite (H n Hn Hbit).
    + apply andb_false_r.
Qed.

Lemma isFlagSet_bit (flagAttr k : Z) :
  0 <= k -> isFlagSet flagAttr (2 ^ k) = Z.testbit flagAttr k.
Proof.
  intros Hk. apply eq_iff_eq_true. rewrite isFlagSet_spec. split.
  - intros H. apply (H k Hk). now apply Z.pow2_bits_true.
  - intros H n Hn Hbit. rewrite Z.pow2_bits_eqb in Hbit by exact Hk.
    apply Z.eqb_eq in Hbit. now subst n.
Qed.

Lemma isFlagSet_lor (flagAttr a b : Z) :
  isFlagSet flagAttr (Z.lor a b) = isFlagSet flagAttr a && isFlagSet flagAttr b.
Proof.
  apply eq_iff_eq_true. rewrite andb_true_iff, !isFlagSet_spec. split.
  - intros H. split; intros n Hn Hbit; apply (H n Hn);
      rewrite Z.lor_spec, Hbit; [reflexivity | apply orb_true_r].
  - intros [Ha Hb] n Hn Hbit. rewrite Z.lor_spec in Hbit.
    apply orb_true_iff in Hbit as [Hbit | Hbit]; auto.
Qed.

Lemma isFlagSet_setFlag (flagAttr flag : Z) :
  isFlagSet (setFlag flagAttr flag) flag = true.
Proof.
  apply isFlagSet_spec. intros n _ Hbit.
  rewrite testbit_setFlag, Hbit. apply orb_true_r.
Qed.

Lemma setFlag_keeps (flagAttr flag : Z) :
  Z.land (setFlag flagAttr flag) flagAttr = flagAttr.
Proof.
  apply Z.bits_inj'. intros n _.
  rewrite Z.land_spec, testbit_setFlag.
  destruct (Z.testbit flagAttr n), (Z.testbit flag n); reflexivity.
Qed.

(** C8: [isFlagSet(setFlag(0, B), B)] holds for each of the twelve flag
    bits, which are the powers of two [0x1] to [0x800]; and for all flags
    [f] and bits [B], [setFlag(f, B)] has exactly the bits of [f] and the
    bits of [B], so it adds only bits of [B] and clears no bit of [f]. *)
Theorem C8_flag_bit_independence :
  all_flags = map (fun k => 2 ^ k) [0; 1; 2; 3; 4; 5; 6; 7; 8; 9; 10; 11]
  /\ Forall (fun B => isFlagSet (setFlag 0 B) B = true) all_flags
  /\ (forall f B n,
        Z.testbit (setFlag f B) n = Z.testbit f n || Z.testbit B n)
  /\ (forall f B, isFlagSet (setFlag f B) B = true)
  /\ (forall f B, isFlagSet (setFlag f B) f = true).
Proof.
  split; [reflexivity|]. split.
  - apply Forall_forall. intros B _. apply isFlagSet_setFlag.
  - split; [exact testbit_setFlag|]. split; [exact isFlagSet_setFlag|].
    intros f B. unfold isFlagSet. apply Z.eqb_eq, setFlag_keeps.
Qed.

End FlagBits.

(** ** The flag computation *)

Section FlagComputation.

Import SamFlags ReadAlignment.

(** The flag computation returns exactly when the mate position is a
    message; on [None] the call at line 223 raises. *)
Lemma toSamFlag_present r m :
  next_mate_position r = Some m -> SamLine.toSamFlag r = ok (flag_of r m).
Proof. intros Hm. unfold SamLine.toSamFlag. rewrite Hm. reflexivity. Qed.

Lemma toSamFlag_absent r :
  next_mate_position r = None -> SamLine.toSamFlag r = raise AttributeError.
Proof. intros Hm. unfold SamLine.toSamFlag. rewrite Hm. reflexivity. Qed.

Lemma testbit_cond_set (c : bool) (bit flag n : Z) :
  Z.testbit (cond_set c bit flag) n = Z.testbit flag n || c && Z.testbit bit n.
Proof.
  destruct c; unfold cond_set.
  - apply testbit_setFlag.
  - now rewrite orb_false_r.
Qed.

Lemma testbit_pair_member (rn flag n : Z) :
  Z.testbit (pair_member rn flag) n
  = Z.testbit flag n
    || negb (rn =? -1) && negb (rn =? 1) && Z.testbit FIRST_IN_PAIR n
    || negb (rn =? -1) && negb (rn =? 0) && Z.testbit SECOND_IN_PAIR n.
Proof.
  unfold pair_member.
  destruct (rn =? -1) eqn:H1; [now rewrite !orb_false_r|].
  destruct (rn =? 0) eqn:H0.
  - apply Z.eqb_eq in H0. subst rn. rewrite testbit_setFlag. cbn [Z.eqb negb andb].
    now rewrite orb_false_r.
  - destruct (rn =? 1) eqn:H2; rewrite !testbit_setFlag; cbn [negb andb].
    + now destruct (Z.testbit flag n).
    + reflexivity.
Qed.

(** Every bit of the computed flag, in terms of the record. *)
Lemma flag_of_testbit r m n : Z.testbit (flag_of r m) n = flag_bit r m n.
Proof.
  unfold flag_of, flag_bit. cbv zeta.
  rewrite !testbit_cond_set, testbit_pair_member, !testbit_cond_set.
  rewrite Z.testbit_0_l. cbn [orb].
  reflexivity.
Qed.

Ltac read_flag_bit k :=
  match goal with
  | |- context [isFlagSet _ ?B] => change B with (2 ^ k)
  end;
  rewrite isFlagSet_bit by lia;
  rewrite flag_of_testbit; unfold flag_bit; cbn;
  rewrite ?andb_false_r, ?andb_true_r, ?orb_false_r; cbn [orb];
  rewrite ?orb_false_r.

Lemma flag_READ_PAIRED r m :
  isFlagSet (flag_of r m) READ_PAIRED = (number_reads r =? 2).
Proof. read_flag_bit 0. reflexivity. Qed.

Lemma flag_READ_UNMAPPED r m :
  isFlagSet (flag_of r m) READ_UNMAPPED = SamLine.is_None (alignment r).
Proof. read_flag_bit 2. reflexivity. Qed.

Lemma flag_MATE_UNMAPPED r m :
  isFlagSet (flag_of r m) MATE_UNMAPPED = (ByteSize m =? 0).
Proof. read_flag_bit 3. reflexivity. Qed.

Lemma flag_FIRST_IN_PAIR r m :
  isFlagSet (flag_of r m) FIRST_IN_PAIR
  = negb (read_number r =? -1) && negb (read_number r =? 1).
Proof. read_flag_bit 6. reflexivity. Qed.

Lemma flag_SECOND_IN_PAIR r m :
  isFlagSet (flag_of r m) SECOND_IN_PAIR
  = negb (read_number r =? -1) && negb (read_number r =? 0).
Proof. read_flag_bit 7. reflexivity. Qed.

(** A message has size 0 exactly when every field holds its default. *)
Lemma varint_size_pos n : 0 < varint_size n.
Proof.
  unfold varint_size. destruct (n <? 0); [lia|].
  pose proof (Z.log2_nonneg n).
  assert (0 <= Z.log2 n / 7) by (apply Z.div_pos; lia). lia.
Qed.

Lemma ByteSize_zero_iff p : ByteSize p = 0 <-> p = cleared.
Proof.
  split.
  - destruct p as [name pos strand]. unfold ByteSize. cbn [Position.reference_name Position.position Position.strand]. cbv zeta.
    pose proof (varint_size_pos (Z.of_nat (String.length name))).
    pose proof (varint_size_pos pos).
    destruct (Z.of_nat (String.length name) =? 0) eqn:Hname;
      destruct (pos =? 0) eqn:Hpos; destruct strand; try lia.
    intros _. apply Z.eqb_eq in Hname, Hpos. subst pos.
    destruct name; [reflexivity | cbn in Hname; lia].
  - intros ->. reflexivity.
Qed.


(** C5: for a record whose flag is computed (its mate position is a
    message), [read_number = -1] sets neither pair-member bit, [0] sets only
    first-in-pair, [1] sets only second-in-pair, and every other value sets
    both; with [read_number = 2] and [number_reads = 2] the flag contains
    [0x1 | 0x40 | 0x80]. *)
Theorem C5_pair_member_bits (read : ReadAlignment.t) (m : Position.t) :
  next_mate_position read = Some m ->
  exists flag,
    SamLine.toSamFlag read = ok flag
    /\ (read_number read = -1 ->
        isFlagSet flag FIRST_IN_PAIR = false
        /\ isFlagSet flag SECOND_IN_PAIR = false)
    /\ (read_number read = 0 ->
        isFlagSet flag FIRST_IN_PAIR = true
        /\ isFlagSet flag SECOND_IN_PAIR = false)
    /\ (read_number read = 1 ->
        isFlagSet flag FIRST_IN_PAIR = false
        /\ isFlagSet flag SECOND_IN_PAIR = true)
    /\ (read_number read <> -1 -> read_number read <> 0 ->
        read_number read <> 1 ->
        isFlagSet flag FIRST_IN_PAIR = true
        /\ isFlagSet flag SECOND_IN_PAIR = true)
    /\ (read_number read = 2 -> number_reads read = 2 ->
        isFlagSet flag
          (Z.lor (Z.lor READ_PAIRED FIRST_IN_PAIR) SECOND_IN_PAIR) = true).
Proof.
  intros Hm. exists (flag_of read m). split; [now apply toSamFlag_present|].
  rewrite !isFlagSet_lor, flag_READ_PAIRED, flag_FIRST_IN_PAIR,
    flag_SECOND_IN_PAIR.
  repeat split; intros; 
    repeat match goal with
           | H : read_number read = _ |- _ => rewrite H
           | H : number_reads read = _ |- _ => rewrite H
           end; try reflexivity.
  - destruct (read_number read =? -1) eqn:E1; [apply Z.eqb_eq in E1; lia|].
    destruct (read_number read =? 1) eqn:E2; [apply Z.eqb_eq in E2; lia|].
    reflexivity.
  - destruct (read_number read =? -1) eqn:E1; [apply Z.eqb_eq in E1; lia|].
    destruct (read_number read =? 0) eqn:E2; [apply Z.eqb_eq in E2; lia|].
    reflexivity.
Qed.

Lemma C5_pair_member_bits_witness :
  exists flag,
    SamLine.toSamFlag both_members_read = ok flag
    /\ isFlagSet flag (Z.lor (Z.lor READ_PAIRED FIRST_IN_PAIR) SECOND_IN_PAIR)
       = true.
Proof.
  destruct (C5_pair_member_bits both_members_read
              (Position.Build "chr1" 200 POS_STRAND) eq_refl)
    as (flag & Hflag & _ & _ & _ & _ & Hboth).
  exists flag. split; [exact Hflag | apply Hboth; reflexivity].
Defined.

(** C9: the mate-unmapped bit [0x8] is set exactly when the mate position
    is cleared, that is has every field at its default, which is what a
    record without mate holds.  The flag is computed for every record whose
    mate position is a message. *)
Theorem C9_mate_unmapped_iff_cleared (read : ReadAlignment.t)
  (m : Position.t) :
  next_mate_position read = Some m ->
  exists flag,
    SamLine.toSamFlag read = ok flag
    /\ (isFlagSet flag MATE_UNMAPPED = true <-> m = cleared).
Proof.
  intros Hm. exists (flag_of read m). split; [now apply toSamFlag_present|].
  rewrite flag_MATE_UNMAPPED, Z.eqb_eq. apply ByteSize_zero_iff.
Qed.

Lemma C9_mate_unmapped_iff_cleared_witness :
  (exists flag,
     SamLine.toSamFlag cleared_mate_read = ok flag
     /\ isFlagSet flag MATE_UNMAPPED = true)
  /\ (exists flag,
        SamLine.toSamFlag scenario_read = ok flag
        /\ isFlagSet flag MATE_UNMAPPED <> true).
Proof.
  split.
  - destruct (C9_mate_unmapped_iff_cleared cleared_mate_read cleared eq_refl)
      as (flag & Hflag & Hbit).
    exists flag. split; [exact Hflag | exact (proj2 Hbit eq_refl)].
  - destruct (C9_mate_unmapped_iff_cleared scenario_read
                (Position.Build "chr1" 200 POS_STRAND) eq_refl)
      as (flag & Hflag & Hbit).
    exists flag. split; [exact Hflag|].
    intros Hset. apply (proj1 Hbit) in Hset. discriminate Hset.
Defined.

End FlagComputation.

(** ** Tags, target ids and the transcoder *)

Section Transcoder.

Import SamFlags ReadAlignment.

(** [_parseTagValue] by the number and the kind of the values. *)
Lemma _parseTagValue_empty : SamLine._parseTagValue [] = raise IndexError.
Proof. reflexivity. Qed.

Lemma _parseTagValue_many v1 v2 vs :
  SamLine._parseTagValue (v1 :: v2 :: vs)
  = ok (AlignedSegment.TagList (map getValueFromValue (v1 :: v2 :: vs))).
Proof.
  unfold SamLine._parseTagValue.
  replace (1 <? Z.of_nat (length (v1 :: v2 :: vs))) with true; [reflexivity|].
  symmetry. apply Z.ltb_lt. cbn [length]. lia.
Qed.

Lemma _parseTagValue_number v :
  SamLine.is_number (getValueFromValue v) = true ->
  SamLine._parseTagValue [v] = ok (AlignedSegment.TagBare (getValueFromValue v)).
Proof. destruct v; intros H; [reflexivity | reflexivity | discriminate]. Qed.

Lemma _parseTagValue_text text :
  SamLine._parseTagValue [string_value text]
  = if SamLine.is_ascii text then ok (AlignedSegment.TagText text)
    else raise UnicodeEncodeError.
Proof.
  unfold SamLine._parseTagValue. cbn [length Z.of_nat Z.ltb Z.compare].
  rewrite list_getitem_head. cbn [bindE ok getValueFromValue].
  unfold SamLine.str_of_text. destruct (SamLine.is_ascii text); reflexivity.
Qed.

(** [_parseTagValue] returns exactly on the value lists [tag_values_ok]
    accepts, and what it returns is what the specification words. *)
Lemma _parseTagValue_ok values :
  tag_values_ok values = true ->
  exists out, SamLine._parseTagValue values = ok out /\ spec_tag_value values out.
Proof.
  intros Hok. destruct values as [|v1 [|v2 vs]]; [discriminate| |].
  - destruct v1 as [z|f|s].
    + eexists. split; [reflexivity|]. split; [cbn; lia|].
      split; intros v [= <-]; cbn; [reflexivity | discriminate].
    + eexists. split; [reflexivity|]. split; [cbn; lia|].
      split; intros v [= <-]; cbn; [reflexivity | discriminate].
    + cbn in Hok. exists (AlignedSegment.TagText s).
      split; [now rewrite _parseTagValue_text, Hok|].
      split; [cbn; lia|].
      split; intros v [= <-]; cbn; [discriminate | eauto].
  - eexists. split; [apply _parseTagValue_many|].
    split; [reflexivity|]. split; intros v [=].
Qed.

Lemma _parseTagValue_not_ok values :
  tag_values_ok values = false ->
  SamLine._parseTagValue values
  = raise (match values with [] => IndexError | _ => UnicodeEncodeError end).
Proof.
  intros Hok. destruct values as [|v1 [|v2 vs]]; [reflexivity| |].
  - destruct v1 as [z|f|s]; try discriminate. cbn in Hok.
    now rewrite _parseTagValue_text, Hok.
  - destruct v1; discriminate.
Qed.

(** The loop of [toTags] handles every item, or stops with the exception
    of the first value list [_parseTagValue] refuses. *)
Lemma toTags_loop_ok items :
  Forall (fun item : string * list AttributeValue =>
            tag_values_ok (snd item) = true) items ->
  exists tags,
    SamLine.toTags_loop items = ok tags
    /\ Forall2 (fun item out => fst out = fst item
                                /\ spec_tag_value (snd item) (snd out))
         items tags.
Proof.
  induction 1 as [|[tag values] items Hok _ IH].
  - exists []. split; [reflexivity | constructor].
  - destruct (_parseTagValue_ok values Hok) as (out & Hout & Hspec).
    destruct IH as (tags & Htags & Hall).
    exists ((tag, out) :: tags). split.
    + cbn [SamLine.toTags_loop]. rewrite Hout. cbn [bindE ok].
      rewrite Htags. reflexivity.
    + constructor; [split; [reflexivity | exact Hspec] | exact Hall].
Qed.

Lemma toTags_loop_stops (good : list (string * list AttributeValue)) :
  forall tag values rest,
    Forall (fun item : string * list AttributeValue =>
              tag_values_ok (snd item) = true) good ->
    tag_values_ok values = false ->
    SamLine.toTags_loop (good ++ (tag, values) :: rest)
    = raise (match values with [] => IndexError | _ => UnicodeEncodeError end).
Proof.
  induction good as [|[tag0 values0] good IH]; intros tag values rest Hgood Hbad.
  - cbn [app SamLine.toTags_loop].
    now rewrite (_parseTagValue_not_ok values Hbad).
  - inversion Hgood as [|? ? Hok Hrest]; subst. cbn [snd] in Hok.
    cbn [app SamLine.toTags_loop].
    destruct (_parseTagValue_ok values0 Hok) as (out & Hout & _).
    rewrite Hout. cbn [bindE ok].
    now rewrite (IH tag values rest Hrest Hbad).
Qed.

Lemma toTags_loop_returned items :
  forall tags,
    SamLine.toTags_loop items = ok tags ->
    Forall (fun item : string * list AttributeValue =>
              tag_values_ok (snd item) = true) items.
Proof.
  induction items as [|[tag values] items IH]; intros tags Hrun;
    [constructor|].
  cbn [SamLine.toTags_loop] in Hrun.
  destruct (tag_values_ok values) eqn:Hok.
  - constructor; [exact Hok|].
    destruct (_parseTagValue_ok values Hok) as (out & Hout & _).
    rewrite Hout in Hrun. cbn [bindE ok] in Hrun.
    destruct (SamLine.toTags_loop items) as [e|tags']; [discriminate|].
    now apply (IH tags').
  - rewrite (_parseTagValue_not_ok values Hok) in Hrun. discriminate.
Qed.

(** Reading [d[k]] returns [defaultdict_value k d], leaves [k] stored, and
    changes the value no later read returns. *)
Lemma defaultdict_getitem_fst k d :
  fst (defaultdict_getitem k d) = defaultdict_value k d.
Proof.
  unfold defaultdict_getitem, defaultdict_value.
  destruct (d !! k); reflexivity.
Qed.

Lemma defaultdict_getitem_stores k d :
  snd (defaultdict_getitem k d) !! k = Some (defaultdict_value k d).
Proof.
  unfold defaultdict_getitem, defaultdict_value.
  destruct (d !! k) eqn:Hk; cbn; [exact Hk | apply lookup_insert_eq].
Qed.

Lemma defaultdict_getitem_value_other k k' d :
  defaultdict_value k' (snd (defaultdict_getitem k d)) = defaultdict_value k' d.
Proof.
  unfold defaultdict_getitem, defaultdict_value.
  destruct (d !! k) eqn:Hk; cbn; [reflexivity|].
  destruct (decide (k = k')) as [<- | Hne].
  - now rewrite lookup_insert_eq, Hk.
  - now rewrite lookup_insert_ne.
Qed.

Lemma defaultdict_value_missing k (d : gmap string Z) :
  d !! k = None -> defaultdict_value k d = 0.
Proof. unfold defaultdict_value. now intros ->. Qed.

(** The ids [_getTargetIds] assigns count up from 0. *)
Lemma _getTargetIds_loop_values headerLines :
  forall targetId (targetIds : gmap string Z) k v,
    SamConverter._getTargetIds_loop headerLines targetId targetIds !! k = Some v ->
    targetIds !! k = Some v \/ targetId <= v.
Proof.
  induction headerLines as [|line rest IH]; intros targetId targetIds k v H;
    cbn in H; [now left|].
  apply IH in H as [H | H]; [|right; lia].
  destruct (decide (SamConverter.SN line = k)) as [<- | Hne].
  - rewrite lookup_insert_eq in H. injection H as <-. right. lia.
  - rewrite lookup_insert_ne in H by exact Hne. now left.
Qed.

Lemma _getTargetIds_value_nonneg header k :
  0 <= defaultdict_value k (SamConverter._getTargetIds header).
Proof.
  unfold defaultdict_value, SamConverter._getTargetIds.
  destruct (SamConverter.SQ header) as [headerLines|];
    [|rewrite lookup_empty; cbn; lia].
  destruct (_ !! k) as [v|] eqn:Hk; cbn; [|lia].
  apply _getTargetIds_loop_values in Hk as [Hk | Hk]; [|exact Hk].
  rewrite lookup_empty in Hk. discriminate.
Qed.

(** The transcoder on a record without, and with, a mate position: every
    field of the segment it returns. *)
Lemma toAlignedSegment_absent_mate read d :
  next_mate_position read = None ->
  SamLine.toAlignedSegment read d = raise AttributeError.
Proof.
  intros Hm. unfold SamLine.toAlignedSegment, bindM, liftE.
  now rewrite (toSamFlag_absent read Hm).
Qed.

Lemma toAlignedSegment_present read m tags d :
  next_mate_position read = Some m ->
  SamLine.toTags read = ok tags ->
  exists seg d',
    SamLine.toAlignedSegment read d = ok (seg, d')
    /\ AlignedSegment.query_name seg = fragment_name read
    /\ AlignedSegment.query_sequence seg = aligned_sequence read
    /\ AlignedSegment.flag seg = flag_of read m
    /\ AlignedSegment.reference_id seg
       = match alignment read with
         | Some a =>
             defaultdict_value
               (Position.reference_name (LinearAlignment.position a)) d
         | None => AlignedSegment.UNMAPPED
         end
    /\ AlignedSegment.reference_start seg
       = match alignment read with
         | Some a => Position.position (LinearAlignment.position a)
         | None => 0
         end
    /\ AlignedSegment.mapping_quality seg
       = match alignment read with
         | Some a => LinearAlignment.mapping_quality a
         | None => 0
         end
    /\ AlignedSegment.cigar seg = SamLine.toCigar read
    /\ AlignedSegment.next_reference_id seg
       = defaultdict_value (Position.reference_name m) d
    /\ AlignedSegment.next_reference_start seg = Position.position m
    /\ AlignedSegment.template_length seg = fragment_length read
    /\ AlignedSegment.query_qualities seg = aligned_quality read
    /\ AlignedSegment.tags seg = tags
    /\ d' !! Position.reference_name m
       = Some (defaultdict_value (Position.reference_name m) d).
Proof.
  intros Hm Htags.
  unfold SamLine.toAlignedSegment, bindM, liftE, retM, targetIds_getitem.
  rewrite (toSamFlag_present read m Hm), Hm, Htags.
  unfold ok. cbv beta iota zeta.
  destruct (alignment read) as [a|]; cbv beta iota.
  - set (name := Position.reference_name (LinearAlignment.position a)).
    destruct (defaultdict_getitem name d) as [tid d1] eqn:H1.
    cbv beta iota.
    destruct (defaultdict_getitem (Position.reference_name m) d1)
      as [mtid d2] eqn:H2.
    eexists _, _. split; [reflexivity|]. cbn.
    pose proof (defaultdict_getitem_fst name d) as Htid.
    pose proof (defaultdict_getitem_fst (Position.reference_name m) d1) as Hmtid.
    pose proof (defaultdict_getitem_value_other name (Position.reference_name m) d) as Hsame.
    pose proof (defaultdict_getitem_stores (Position.reference_name m) d1) as Hst.
    rewrite H1 in Htid, Hsame. rewrite H2 in Hmtid, Hst. cbn in *.
    rewrite Hsame in Hmtid, Hst. subst tid mtid.
    repeat split; try reflexivity. exact Hst.
  - destruct (defaultdict_getitem (Position.reference_name m) d)
      as [mtid d2] eqn:H2.
    eexists _, _. split; [reflexivity|]. cbn.
    pose proof (defaultdict_getitem_fst (Position.reference_name m) d) as Hmtid.
    pose proof (defaultdict_getitem_stores (Position.reference_name m) d) as Hst.
    rewrite H2 in Hmtid, Hst. cbn in *. subst mtid.
    repeat split; try reflexivity. exact Hst.
Qed.

(** A returned segment means the flag and the tags were computed. *)
Lemma toAlignedSegment_inv read d seg d' :
  SamLine.toAlignedSegment read d = ok (seg, d') ->
  exists m tags,
    next_mate_position read = Some m /\ SamLine.toTags read = ok tags.
Proof.
  intros Hrun.
  destruct (next_mate_position read) as [m|] eqn:Hm;
    [|rewrite (toAlignedSegment_absent_mate read d Hm) in Hrun; discriminate].
  exists m.
  destruct (SamLine.toTags read) as [e|tags] eqn:Htags; [|eauto].
  exfalso. revert Hrun.
  unfold SamLine.toAlignedSegment, bindM, liftE, retM, targetIds_getitem.
  rewrite (toSamFlag_present read m Hm), Hm, Htags.
  unfold ok. cbv beta iota zeta.
  destruct (alignment read); cbv beta iota;
    repeat (destruct (defaultdict_getitem _ _); cbv beta iota);
    discriminate.
Qed.

(** When the tags cannot be computed, no segment is returned. *)
Lemma toAlignedSegment_tags_raise read m d e :
  next_mate_position read = Some m ->
  SamLine.toTags read = raise e ->
  SamLine.toAlignedSegment read d = raise e.
Proof.
  intros Hm Htags.
  unfold SamLine.toAlignedSegment, bindM, liftE, retM, targetIds_getitem.
  rewrite (toSamFlag_present read m Hm), Hm, Htags.
  unfold ok, raise. cbv beta iota zeta.
  destruct (alignment read); cbv beta iota;
    repeat (destruct (defaultdict_getitem _ _); cbv beta iota);
    reflexivity.
Qed.

End Transcoder.

(** ** What a returned segment holds *)

Section Returned.

Import SamFlags ReadAlignment.

Lemma toAlignedSegment_fields (read : ReadAlignment.t) (d d' : gmap string Z)
  (seg : AlignedSegment.t) :
  SamLine.toAlignedSegment read d = ok (seg, d') ->
  AlignedSegment.query_name seg = fragment_name read
  /\ AlignedSegment.query_sequence seg = aligned_sequence read
  /\ AlignedSegment.query_qualities seg = aligned_quality read
  /\ AlignedSegment.template_length seg = fragment_length read
  /\ SamLine.toSamFlag read = ok (AlignedSegment.flag seg)
  /\ SamLine.toTags read = ok (AlignedSegment.tags seg)
  /\ AlignedSegment.cigar seg = SamLine.toCigar read
  /\ match alignment read with
     | Some a =>
         AlignedSegment.reference_id seg
         = defaultdict_value
             (Position.reference_name (LinearAlignment.position a)) d
         /\ AlignedSegment.reference_start seg
            = Position.position (LinearAlignment.position a)
         /\ AlignedSegment.mapping_quality seg
            = LinearAlignment.mapping_quality a
     | None =>
         AlignedSegment.reference_id seg = -1
         /\ AlignedSegment.reference_start seg = 0
         /\ AlignedSegment.mapping_quality seg = 0
     end
  /\ exists m,
       next_mate_position read = Some m
       /\ AlignedSegment.next_reference_id seg
          = defaultdict_value (Position.reference_name m) d
       /\ AlignedSegment.next_reference_start seg = Position.position m.
Proof.
  intros Hrun.
  destruct (toAlignedSegment_inv read d seg d' Hrun) as (m & tags & Hm & Htags).
  destruct (toAlignedSegment_present read m tags d Hm Htags)
    as (seg0 & d0 & Hseg & Hname & Hseq & Hflag & Hid & Hstart & Hmq & Hcig
        & Hmid & Hmpos & Htlen & Hqual & Htg & _).
  rewrite Hseg in Hrun. injection Hrun as <- <-.
  rewrite Hname, Hseq, Hqual, Htlen, Hflag, Htg, Hcig.
  repeat split; try reflexivity.
  - now apply toSamFlag_present.
  - exact Htags.
  - destruct (alignment read); repeat split; assumption.
  - exists m. repeat split; assumption.
Qed.

(** What one [d[k]] does to the dictionary. *)
Lemma defaultdict_getitem_grows (k : string) (d : gmap string Z) :
  (forall k' v, d !! k' = Some v ->
                snd (defaultdict_getitem k d) !! k' = Some v)
  /\ (forall k', d !! k' = None ->
        snd (defaultdict_getitem k d) !! k' = None
        \/ (k' = k /\ snd (defaultdict_getitem k d) !! k' = Some 0)).
Proof.
  unfold defaultdict_getitem. destruct (d !! k) eqn:Hk; cbn [snd].
  - split; [auto | now left].
  - split.
    + intros k' v Hk'. rewrite lookup_insert_ne; [exact Hk' | congruence].
    + intros k' Hk'. destruct (decide (k = k')) as [<- | Hne].
      * right. now rewrite lookup_insert_eq.
      * left. now rewrite lookup_insert_ne.
Qed.

(** The dictionary the transcoder hands back, spelled out. *)
Lemma toAlignedSegment_dictionary (read : ReadAlignment.t)
  (d d' : gmap string Z) (seg : AlignedSegment.t) :
  SamLine.toAlignedSegment read d = ok (seg, d') ->
  exists m,
    next_mate_position read = Some m
    /\ d' = snd (defaultdict_getitem (Position.reference_name m)
                   match alignment read with
                   | Some a =>
                       snd (defaultdict_getitem
                              (Position.reference_name
                                 (LinearAlignment.position a)) d)
                   | None => d
                   end).
Proof.
  intros Hrun.
  destruct (toAlignedSegment_inv read d seg d' Hrun) as (m & tags & Hm & Htags).
  exists m. split; [exact Hm|].
  revert Hrun.
  unfold SamLine.toAlignedSegment, bindM, liftE, retM, targetIds_getitem.
  rewrite (toSamFlag_present read m Hm), Hm, Htags.
  unfold ok. cbv beta iota zeta.
  destruct (alignment read) as [a|]; cbv beta iota.
  - destruct (defaultdict_getitem _ d) as [tid d1]. cbv beta iota.
    cbn [snd].
    destruct (defaultdict_getitem (Position.reference_name m) d1)
      as [mtid d2]. cbv beta iota. cbn [snd]. now intros [= _ <-].
  - destruct (defaultdict_getitem (Position.reference_name m) d)
      as [mtid d2]. cbv beta iota. cbn [snd]. now intros [= _ <-].
Qed.

Lemma toAlignedSegment_dictionary_grows (read : ReadAlignment.t)
  (d d' : gmap string Z) (seg : AlignedSegment.t) :
  SamLine.toAlignedSegment read d = ok (seg, d') ->
  (forall k v, d !! k = Some v -> d' !! k = Some v)
  /\ (forall k, d !! k = None -> d' !! k = None \/ d' !! k = Some 0)
  /\ same_values d d'.
Proof.
  intros Hrun.
  destruct (toAlignedSegment_dictionary read d d' seg Hrun)
    as (m & _ & ->).
  set (d1 := match alignment read with
             | Some a => snd (defaultdict_getitem _ d)
             | None => d
             end).
  assert (H1 : (forall k v, d !! k = Some v -> d1 !! k = Some v)
               /\ (forall k, d !! k = None ->
                     d1 !! k = None \/ d1 !! k = Some 0)
               /\ same_values d d1).
  { subst d1. destruct (alignment read) as [a|].
    - destruct (defaultdict_getitem_grows
                  (Position.reference_name (LinearAlignment.position a)) d)
        as [Hold Hnew].
      split; [exact Hold|]. split.
      + intros k Hk. destruct (Hnew k Hk) as [? | [_ ?]]; auto.
      + intros k. symmetry. apply defaultdict_getitem_value_other.
    - split; [auto|]. split; [auto | intros k; reflexivity]. }
  destruct H1 as (Hold1 & Hnew1 & Hsame1).
  destruct (defaultdict_getitem_grows (Position.reference_name m) d1)
    as [Hold2 Hnew2].
  split; [auto|]. split.
  - intros k Hk. destruct (Hnew1 k Hk) as [Hn | Hz].
    + destruct (Hnew2 k Hn) as [? | [_ ?]]; auto.
    + right. auto.
  - intros k. rewrite (Hsame1 k). symmetry.
    apply defaultdict_getitem_value_other.
Qed.

Lemma AlignedSegment_eq (s1 s2 : AlignedSegment.t) :
  AlignedSegment.query_name s1 = AlignedSegment.query_name s2 ->
  AlignedSegment.query_sequence s1 = AlignedSegment.query_sequence s2 ->
  AlignedSegment.flag s1 = AlignedSegment.flag s2 ->
  AlignedSegment.reference_id s1 = AlignedSegment.reference_id s2 ->
  AlignedSegment.reference_start s1 = AlignedSegment.reference_start s2 ->
  AlignedSegment.mapping_quality s1 = AlignedSegment.mapping_quality s2 ->
  AlignedSegment.cigar s1 = AlignedSegment.cigar s2 ->
  AlignedSegment.next_reference_id s1 = AlignedSegment.next_reference_id s2 ->
  AlignedSegment.next_reference_start s1
  = AlignedSegment.next_reference_start s2 ->
  AlignedSegment.template_length s1 = AlignedSegment.template_length s2 ->
  AlignedSegment.query_qualities s1 = AlignedSegment.query_qualities s2 ->
  AlignedSegment.tags s1 = AlignedSegment.tags s2 ->
  s1 = s2.
Proof. destruct s1, s2. cbn. intros. congruence. Qed.

Lemma toAlignedSegment_same_values (read : ReadAlignment.t)
  (d1 d2 d1' : gmap string Z) (seg : AlignedSegment.t) :
  same_values d1 d2 ->
  SamLine.toAlignedSegment read d1 = ok (seg, d1') ->
  exists d2',
    SamLine.toAlignedSegment read d2 = ok (seg, d2') /\ same_values d1' d2'.
Proof.
  intros Hsame Hrun1.
  destruct (toAlignedSegment_inv read d1 seg d1' Hrun1)
    as (m & tags & Hm & Htags).
  destruct (toAlignedSegment_present read m tags d2 Hm Htags)
    as (seg2 & d2' & Hrun2 & _).
  destruct (toAlignedSegment_dictionary_grows _ _ _ _ Hrun1) as (_ & _ & Hs1).
  destruct (toAlignedSegment_dictionary_grows _ _ _ _ Hrun2) as (_ & _ & Hs2).
  exists d2'. split.
  - rewrite Hrun2. do 2 f_equal.
    destruct (toAlignedSegment_fields _ _ _ _ Hrun1)
      as (Hn1 & Hs1' & Hq1 & Ht1 & Hf1 & Htg1 & Hc1 & Ha1 & m1 & Hm1 & Hi1
          & Hp1).
    destruct (toAlignedSegment_fields _ _ _ _ Hrun2)
      as (Hn2 & Hs2' & Hq2 & Ht2 & Hf2 & Htg2 & Hc2 & Ha2 & m2 & Hm2 & Hi2
          & Hp2).
    rewrite Hm1 in Hm2. injection Hm2 as <-.
    rewrite Hf1 in Hf2. rewrite Htg1 in Htg2.
    unfold ok in Hf2, Htg2.
    pose proof (Hsame (Position.reference_name m1)) as Hmate.
    apply AlignedSegment_eq; try congruence;
      destruct (alignment read) as [a|];
      destruct Ha1 as (Hid1 & Hst1 & Hmq1), Ha2 as (Hid2 & Hst2 & Hmq2);
      try congruence.
  - intros k. now rewrite <- (Hs1 k), <- (Hs2 k).
Qed.

(** The names the transcoder looked up are in the dictionary afterwards. *)
Lemma toAlignedSegment_stores (read : ReadAlignment.t) (d d' : gmap string Z)
  (seg : AlignedSegment.t) :
  SamLine.toAlignedSegment read d = ok (seg, d') ->
  (forall a, alignment read = Some a ->
     d' !! Position.reference_name (LinearAlignment.position a)
     = Some (defaultdict_value
               (Position.reference_name (LinearAlignment.position a)) d))
  /\ (forall m, next_mate_position read = Some m ->
        d' !! Position.reference_name m
        = Some (defaultdict_value (Position.reference_name m) d)).
Proof.
  intros Hrun.
  destruct (toAlignedSegment_dictionary read d d' seg Hrun) as (m & Hm & ->).
  split.
  - intros a Ha. rewrite Ha.
    set (k := Position.reference_name (LinearAlignment.position a)).
    apply (proj1 (defaultdict_getitem_grows (Position.reference_name m) _)).
    apply defaultdict_getitem_stores.
  - intros m' Hm'. rewrite Hm in Hm'. injection Hm' as <-.
    rewrite defaultdict_getitem_stores. f_equal.
    destruct (alignment read) as [a|]; [|reflexivity].
    apply defaultdict_getitem_value_other.
Qed.

End Returned.

(** ** The transcoder on whole records *)

Section Records.

Import SamFlags ReadAlignment.

(** C1: for the reference ["chr1"] of length 1000 the header builder gives
    ["chr1"] target id 0, and the end-to-end record is transcoded to flag
    [0x43], reference id 0, position 100, mapping quality 60, CIGAR
    [[(0, 4)]], mate reference id 0, mate position 200 and template length
    150; [convert] writes exactly that segment. *)
Theorem C1_end_to_end :
  chr1_targetIds !! "chr1" = Some 0
  /\ exists seg d',
       SamLine.toAlignedSegment scenario_read chr1_targetIds = ok (seg, d')
       /\ convert chr1 [scenario_read]
          = ok (SamConverter._getHeader chr1, [seg])
       /\ AlignedSegment.flag seg = 0x43
       /\ AlignedSegment.reference_id seg = 0
       /\ AlignedSegment.reference_start seg = 100
       /\ AlignedSegment.mapping_quality seg = 60
       /\ AlignedSegment.cigar seg = [(Some 0, 4)]
       /\ AlignedSegment.next_reference_id seg = 0
       /\ AlignedSegment.next_reference_start seg = 200
       /\ AlignedSegment.template_length seg = 150.
Proof.
  split; [reflexivity|].
  eexists _, _. split; [vm_compute; reflexivity|].
  repeat split; reflexivity.
Qed.




(** C6: the claim asks for a text to be emitted for a tag with one value
    that is not numeric.  For a text with a character outside ASCII,
    [str(...)] raises [UnicodeEncodeError] before [.encode('utf8')] is
    reached, so no tag is emitted and no segment returned. *)
Theorem C6_non_ascii_text_raises :
  SamLine.is_ascii non_ascii_text = false
  /\ SamLine._parseTagValue [string_value non_ascii_text]
     = raise UnicodeEncodeError
  /\ SamLine.toTags non_ascii_tag_read = raise UnicodeEncodeError
  /\ SamLine.toAlignedSegment non_ascii_tag_read chr1_targetIds
     = raise UnicodeEncodeError.
Proof. repeat split; reflexivity. Qed.

(** C7, as stated, fails: the header lists only ["chr1"], the record names
    ["chrX"] and ["chrY"], and both reference ids are 0, the id of ["chr1"],
    not the unmapped id [-1]. *)
Lemma C7_unknown_reference_counterexample :
  chr1_targetIds !! "chrX" = None
  /\ chr1_targetIds !! "chrY" = None
  /\ exists seg d',
       SamLine.toAlignedSegment unknown_reference_read chr1_targetIds
       = ok (seg, d')
       /\ AlignedSegment.reference_id seg = 0
       /\ AlignedSegment.next_reference_id seg = 0
       /\ AlignedSegment.reference_id seg <> AlignedSegment.UNMAPPED
       /\ AlignedSegment.next_reference_id seg <> AlignedSegment.UNMAPPED
       /\ AlignedSegment.reference_id seg
          = defaultdict_value "chr1" chr1_targetIds.
Proof.
  split; [reflexivity|]. split; [reflexivity|].
  eexists _, _. split; [vm_compute; reflexivity|].
  repeat split; try reflexivity; discriminate.
Qed.

(** C7, amended: the lookup of a reference name that [targetIds] does not
    hold raises nothing: it answers 0, the default of the
    [defaultdict(int)], and stores the name with 0.  So whenever the
    transcoder returns a segment, a reference name of the alignment or of
    the mate that the table did not hold gets the reference id 0, not the
    unmapped id, and is in the table afterwards with id 0. *)
Theorem C7_unknown_reference_is_zero :
  (forall (k : string) (d : gmap string Z),
     d !! k = None -> targetIds_getitem k d = ok (0, <[k := 0]> d))
  /\ (forall (read : ReadAlignment.t) (d d' : gmap string Z)
             (seg : AlignedSegment.t),
        SamLine.toAlignedSegment read d = ok (seg, d') ->
        (forall a, alignment read = Some a ->
           d !! Position.reference_name (LinearAlignment.position a) = None ->
           AlignedSegment.reference_id seg = 0
           /\ d' !! Position.reference_name (LinearAlignment.position a)
              = Some 0)
        /\ (forall m, next_mate_position read = Some m ->
              d !! Position.reference_name m = None ->
              AlignedSegment.next_reference_id seg = 0
              /\ d' !! Position.reference_name m = Some 0)).
Proof.
  split.
  - intros k d Hk. unfold targetIds_getitem, defaultdict_getitem.
    now rewrite Hk.
  - intros read d d' seg Hrun.
    destruct (toAlignedSegment_fields _ _ _ _ Hrun)
      as (_ & _ & _ & _ & _ & _ & _ & Ha & m & Hm & Hmid & _).
    destruct (toAlignedSegment_stores _ _ _ _ Hrun) as [Hsa Hsm].
    split.
    + intros a Hsome Hmiss. rewrite Hsome in Ha. destruct Ha as (Hid & _).
      rewrite Hid, (Hsa a Hsome), (defaultdict_value_missing _ _ Hmiss).
      now split.
    + intros m' Hm' Hmiss. rewrite Hm in Hm'. injection Hm' as <-.
      rewrite Hmid, (Hsm m Hm), (defaultdict_value_missing _ _ Hmiss).
      now split.
Qed.

Lemma C7_unknown_reference_is_zero_witness :
  targetIds_getitem "chrX" chr1_targetIds
  = ok (0, <["chrX" := 0]> chr1_targetIds)
  /\ exists seg d',
       SamLine.toAlignedSegment unknown_reference_read chr1_targetIds
       = ok (seg, d')
       /\ AlignedSegment.reference_id seg = 0
       /\ d' !! "chrX" = Some 0
       /\ AlignedSegment.next_reference_id seg = 0
       /\ d' !! "chrY" = Some 0.
Proof.
  destruct C7_unknown_reference_is_zero as [Hlookup Hseg].
  split; [apply Hlookup; reflexivity|].
  destruct (SamLine.toAlignedSegment unknown_reference_read chr1_targetIds)
    as [e|[seg d']] eqn:Hrun; [vm_compute in Hrun; discriminate|].
  exists seg, d'. split; [reflexivity|].
  destruct (Hseg _ _ _ _ Hrun) as [Hown Hmate].
  destruct (Hown (match4_at "chrX" 100) eq_refl eq_refl) as [Hid Hst].
  destruct (Hmate (Position.Build "chrY" 200 POS_STRAND) eq_refl eq_refl)
    as [Hmid Hmst].
  repeat split; assumption.
Defined.

(** C10: for a record whose mate position is present and cleared, the flag
    computation returns a flag with the mate-unmapped bit set; and whenever
    the transcoder returns a segment for it, that bit is set in the
    segment's flag while the mate reference id is what [targetIds] answers
    for the empty reference name and the mate position is 0: neither is
    [-1] (for the reference id, with [targetIds] built from a header). *)
Theorem C10_cleared_mate_fields (read : ReadAlignment.t) :
  next_mate_position read = Some cleared ->
  (exists flag,
     SamLine.toSamFlag read = ok flag
     /\ isFlagSet flag MATE_UNMAPPED = true)
  /\ (forall (d d' : gmap string Z) (seg : AlignedSegment.t),
        SamLine.toAlignedSegment read d = ok (seg, d') ->
        isFlagSet (AlignedSegment.flag seg) MATE_UNMAPPED = true
        /\ AlignedSegment.next_reference_id seg = defaultdict_value "" d
        /\ AlignedSegment.next_reference_start seg = 0
        /\ AlignedSegment.next_reference_start seg <> -1
        /\ (forall header, d = SamConverter._getTargetIds header ->
              AlignedSegment.next_reference_id seg <> -1)).
Proof.
  intros Hm.
  assert (Hbit : isFlagSet (flag_of read cleared) MATE_UNMAPPED = true)
    by now rewrite flag_MATE_UNMAPPED.
  split.
  - exists (flag_of read cleared). split; [now apply toSamFlag_present|].
    exact Hbit.
  - intros d d' seg Hrun.
    destruct (toAlignedSegment_fields _ _ _ _ Hrun)
      as (_ & _ & _ & _ & Hflag & _ & _ & _ & m & Hm' & Hmid & Hmpos).
    rewrite Hm in Hm'. injection Hm' as <-. cbn in Hmid, Hmpos.
    rewrite (toSamFlag_present read cleared Hm) in Hflag.
    injection Hflag as Hflag.
    split; [now rewrite <- Hflag|].
    split; [exact Hmid|]. split; [exact Hmpos|]. split; [lia|].
    intros header ->. rewrite Hmid.
    pose proof (_getTargetIds_value_nonneg header ""). lia.
Qed.

Lemma C10_cleared_mate_fields_witness :
  exists seg d',
    SamLine.toAlignedSegment cleared_mate_read chr1_targetIds = ok (seg, d')
    /\ isFlagSet (AlignedSegment.flag seg) MATE_UNMAPPED = true
    /\ AlignedSegment.next_reference_id seg = 0
    /\ AlignedSegment.next_reference_start seg = 0.
Proof.
  destruct (SamLine.toAlignedSegment cleared_mate_read chr1_targetIds)
    as [e|[seg d']] eqn:Hrun; [vm_compute in Hrun; discriminate|].
  exists seg, d'. split; [reflexivity|].
  destruct (proj2 (C10_cleared_mate_fields cleared_mate_read eq_refl)
              _ _ _ Hrun) as (Hflag & Hmid & Hmpos & _).
  split; [exact Hflag|]. split; [rewrite Hmid; reflexivity | exact Hmpos].
Defined.

End Records.

(** * Further properties of the code *)

(** ** [SamCigar]: the two directions of the table *)

Section CigarTable.

Import SamCigar.

(** X1: [ga2int] and [int2ga] are inverse on the codes from 0: [ga2int]
    returns [code] for an operation exactly when [code] is not negative and
    [int2ga] returns that operation for it. *)
Theorem X1_ga2int_inverse_of_int2ga (k : Operation) (code : Z) :
  ga2int k = Some code <-> 0 <= code /\ int2ga code = ok k.
Proof.
  split.
  - intros H. split; [exact (ga2int_from_lower _ _ _ _ H)|].
    destruct k; cbv in H; try discriminate; injection H as <-; reflexivity.
  - intros [Hlo H].
    destruct (Z_lt_dec 8 code) as [Hhi|Hhi].
    + unfold int2ga in H. rewrite list_getitem_above in H by (cbn; lia).
      discriminate.
    + assert (Hcases : code = 0 \/ code = 1 \/ code = 2 \/ code = 3
                       \/ code = 4 \/ code = 5 \/ code = 6 \/ code = 7
                       \/ code = 8) by lia.
      repeat (destruct Hcases as [-> | Hcases];
              [cbv in H; injection H as <-; reflexivity|]).
      subst code. cbv in H. injection H as <-. reflexivity.
Qed.

Lemma X1_ga2int_inverse_of_int2ga_witness :
  ga2int CLIP_SOFT = Some 4 /\ (0 <= 4 /\ int2ga 4 = ok CLIP_SOFT).
Proof.
  assert (H : ga2int CLIP_SOFT = Some 4) by reflexivity.
  split; [exact H|].
  exact (proj1 (X1_ga2int_inverse_of_int2ga CLIP_SOFT 4) H).
Defined.

(** X2: [ga2int] falls off its loop and returns [None] for exactly one
    operation, [OPERATION_UNSPECIFIED]; every code it returns lies between
    0 and 8; and it never gives two operations the same result. *)
Theorem X2_ga2int_range_and_injective (k : Operation) :
  (ga2int k = None <-> k = OPERATION_UNSPECIFIED)
  /\ (forall code, ga2int k = Some code -> 0 <= code <= 8)
  /\ (forall k', ga2int k = ga2int k' -> k = k').
Proof.
  split; [apply ga2int_None_iff|]. split.
  - intros code H. destruct k; cbv in H; try discriminate;
      injection H as <-; lia.
  - intros k' H. destruct k, k'; cbv in H; congruence.
Qed.

Lemma X2_ga2int_range_and_injective_witness :
  ga2int OPERATION_UNSPECIFIED = None
  /\ (0 <= 6 <= 8)
  /\ PAD = PAD.
Proof.
  destruct (X2_ga2int_range_and_injective OPERATION_UNSPECIFIED)
    as (Hnone & _ & _).
  destruct (X2_ga2int_range_and_injective PAD) as (_ & Hrange & Hinj).
  split; [exact (proj2 Hnone eq_refl)|].
  split; [exact (Hrange 6 eq_refl) | exact (Hinj PAD eq_refl)].
Defined.

End CigarTable.

(** ** [SamFlags]: masks, and flags that are already set *)

Section FlagMasks.

Import SamFlags.

(** X3: testing a mask made of two flags is testing both:
    [isFlagSet(f, a | b)] is [isFlagSet(f, a) and isFlagSet(f, b)]. *)
Theorem X3_isFlagSet_mask (flagAttr a b : Z) :
  isFlagSet flagAttr (Z.lor a b)
  = isFlagSet flagAttr a && isFlagSet flagAttr b.
Proof. apply isFlagSet_lor. Qed.

(** X4: the empty flag [0] counts as set in every flag word, and the flag
    word [0] has no flag set but the empty one. *)
Theorem X4_isFlagSet_zero (f : Z) :
  isFlagSet f 0 = true /\ (isFlagSet 0 f = true <-> f = 0).
Proof.
  unfold isFlagSet. rewrite Z.land_0_r, Z.land_0_l. split; [reflexivity|].
  rewrite Z.eqb_eq. split; congruence.
Qed.

Lemma X4_isFlagSet_zero_witness :
  isFlagSet 0 0 = true /\ (isFlagSet 0 READ_PAIRED = true -> READ_PAIRED = 0).
Proof.
  destruct (X4_isFlagSet_zero 0) as [_ H0].
  destruct (X4_isFlagSet_zero READ_PAIRED) as [_ H1].
  split; [exact (proj2 H0 eq_refl) | exact (proj1 H1)].
Defined.

(** X5: [setFlag] changes the flag word exactly when the flag was not set
    before; setting a flag twice is setting it once; and the order in which
    two flags are set does not matter. *)
Theorem X5_setFlag_algebra (f a b : Z) :
  (setFlag f a = f <-> isFlagSet f a = true)
  /\ setFlag (setFlag f a) a = setFlag f a
  /\ setFlag (setFlag f a) b = setFlag (setFlag f b) a.
Proof.
  unfold setFlag, isFlagSet. split; [|split].
  - rewrite Z.eqb_eq. split; intros H.
    + rewrite <- H at 1. apply Z.bits_inj'. intros n _.
      rewrite Z.land_spec, Z.lor_spec.
      destruct (Z.testbit f n), (Z.testbit a n); reflexivity.
    + rewrite <- H. apply Z.bits_inj'. intros n _.
      rewrite Z.lor_spec, Z.land_spec.
      destruct (Z.testbit f n), (Z.testbit a n); reflexivity.
  - now rewrite <- Z.lor_assoc, Z.lor_diag.
  - rewrite <- !Z.lor_assoc. f_equal. apply Z.lor_comm.
Qed.

Lemma X5_setFlag_algebra_witness :
  isFlagSet 0x43 FIRST_IN_PAIR = true /\ setFlag 0x43 FIRST_IN_PAIR = 0x43.
Proof.
  assert (H : isFlagSet 0x43 FIRST_IN_PAIR = true) by reflexivity.
  split; [exact H|].
  exact (proj2 (proj1 (X5_setFlag_algebra 0x43 FIRST_IN_PAIR 0)) H).
Defined.

(** X6: setting one single-bit flag does not change the test of any other
    single-bit flag. *)
Theorem X6_setFlag_other_bit (f i j : Z) :
  0 <= i -> 0 <= j -> i <> j ->
  isFlagSet (setFlag f (2 ^ i)) (2 ^ j) = isFlagSet f (2 ^ j).
Proof.
  intros Hi Hj Hne. rewrite !isFlagSet_bit by exact Hj.
  rewrite testbit_setFlag, Z.pow2_bits_eqb by exact Hi.
  destruct (Z.eqb_spec i j) as [Heq|_]; [contradiction|].
  apply orb_false_r.
Qed.

Lemma X6_setFlag_other_bit_witness :
  isFlagSet (setFlag 0 (2 ^ 3)) (2 ^ 5) = isFlagSet 0 (2 ^ 5).
Proof. apply X6_setFlag_other_bit; lia. Defined.

End FlagMasks.

(** ** [SamConverter._getTargetIds] on any header *)

Section TargetIds.

Import SamConverter.

(** A name no line carries keeps what the dictionary held for it. *)
Lemma _getTargetIds_loop_other (headerLines : list SQLine) :
  forall targetId (targetIds : gmap string Z) k,
    k ∉ map SN headerLines ->
    _getTargetIds_loop headerLines targetId targetIds !! k = targetIds !! k.
Proof.
  induction headerLines as [|line rest IH]; intros targetId targetIds k Hk;
    [reflexivity|].
  cbn [_getTargetIds_loop]. cbn [map] in Hk.
  apply not_elem_of_cons in Hk as [Hne Hk].
  rewrite IH by exact Hk. now rewrite lookup_insert_ne.
Qed.

(** The line at index [i] gives its name the id [targetId + i], unless a
    later line has the same name. *)
Lemma _getTargetIds_loop_last (headerLines : list SQLine) :
  forall targetId (targetIds : gmap string Z) (i : nat) line,
    headerLines !! i = Some line ->
    (forall (j : nat) line', (i < j)%nat -> headerLines !! j = Some line' ->
                     SN line' <> SN line) ->
    _getTargetIds_loop headerLines targetId targetIds !! SN line
    = Some (targetId + Z.of_nat i).
Proof.
  induction headerLines as [|line0 rest IH];
    intros targetId targetIds i line Hi Hlast; [discriminate|].
  cbn [_getTargetIds_loop]. destruct i as [|i].
  - injection Hi as ->. rewrite _getTargetIds_loop_other.
    + rewrite lookup_insert_eq. f_equal. lia.
    + intros Hin. apply list_elem_of_fmap in Hin as (line' & Heq & Hin).
      apply list_elem_of_lookup in Hin as [j Hj].
      apply (Hlast (S j) line'); [lia | exact Hj | now symmetry].
  - rewrite (IH (targetId + 1) _ i line Hi).
    + f_equal. lia.
    + intros j line' Hlt Hj. apply (Hlast (S j) line'); [lia | exact Hj].
Qed.

(** Whatever the loop adds for [k] is the index of a line named [k]. *)
Lemma _getTargetIds_loop_lookup (headerLines : list SQLine) :
  forall targetId (targetIds : gmap string Z) k v,
    _getTargetIds_loop headerLines targetId targetIds !! k = Some v ->
    targetIds !! k = Some v
    \/ exists (i : nat) line,
         headerLines !! i = Some line /\ SN line = k
         /\ v = targetId + Z.of_nat i.
Proof.
  induction headerLines as [|line0 rest IH]; intros targetId targetIds k v H;
    cbn [_getTargetIds_loop] in H; [now left|].
  apply IH in H as [H | (i & line & Hi & Hk & ->)].
  - destruct (decide (SN line0 = k)) as [Heq | Hne].
    + rewrite <- Heq, lookup_insert_eq in H. injection H as <-.
      right. exists 0%nat, line0. repeat split; [exact Heq | lia].
    + rewrite lookup_insert_ne in H by exact Hne. now left.
  - right. exists (S i), line. repeat split; [exact Hi | exact Hk | lia].
Qed.

(** Every name a line carries is in the table the loop returns. *)
Lemma _getTargetIds_loop_member (headerLines : list SQLine) :
  forall targetId (targetIds : gmap string Z) k,
    k ∈ map SN headerLines ->
    is_Some (_getTargetIds_loop headerLines targetId targetIds !! k).
Proof.
  induction headerLines as [|line rest IH]; intros targetId targetIds k Hin;
    cbn [map] in Hin; [inversion Hin|].
  cbn [_getTargetIds_loop].
  destruct (decide (k ∈ map SN rest)) as [Hrest | Hrest]; [now apply IH|].
  rewrite _getTargetIds_loop_other by exact Hrest.
  apply elem_of_cons in Hin as [-> | Hin]; [|contradiction].
  rewrite lookup_insert_eq. eauto.
Qed.

(** X7: [_getTargetIds] numbers the sequence lines of the header from 0 in
    their order, and a name that occurs on several lines keeps the number
    of its last line: the line at index [i] gives its name the id [i] when
    no later line carries the same name. *)
Theorem X7_getTargetIds_last_line_wins (header : Header)
  (headerLines : list SQLine) (i : nat) (line : SQLine) :
  SQ header = Some headerLines ->
  headerLines !! i = Some line ->
  (forall (j : nat) line', (i < j)%nat -> headerLines !! j = Some line' ->
                   SN line' <> SN line) ->
  _getTargetIds header !! SN line = Some (Z.of_nat i).
Proof.
  intros HSQ Hi Hlast. unfold _getTargetIds. rewrite HSQ.
  now rewrite (_getTargetIds_loop_last headerLines 0 ∅ i line Hi Hlast).
Qed.

Lemma X7_getTargetIds_last_line_wins_witness :
  _getTargetIds two_chr1_header !! "chr1" = Some 2
  /\ _getTargetIds two_chr1_header !! "chr2" = Some 1.
Proof.
  split.
  - apply (X7_getTargetIds_last_line_wins two_chr1_header
             [ BuildSQ 10 "chr1"; BuildSQ 20 "chr2"; BuildSQ 30 "chr1" ]
             2 (BuildSQ 30 "chr1") eq_refl eq_refl).
    intros [|[|[|j]]] line' Hlt Hj; try lia; discriminate Hj.
  - apply (X7_getTargetIds_last_line_wins two_chr1_header
             [ BuildSQ 10 "chr1"; BuildSQ 20 "chr2"; BuildSQ 30 "chr1" ]
             1 (BuildSQ 20 "chr2") eq_refl eq_refl).
    intros [|[|[|j]]] line' Hlt Hj; try lia; try discriminate Hj.
    injection Hj as <-. discriminate.
Defined.

(** X8: when the header names every sequence once, the [i]-th name gets
    the id [i], so different names get different ids. *)
Theorem X8_getTargetIds_dense (header : Header) :
  NoDup (header_names header) ->
  forall (i : nat) name,
    header_names header !! i = Some name ->
    _getTargetIds header !! name = Some (Z.of_nat i).
Proof.
  unfold header_names, _getTargetIds.
  destruct (SQ header) as [headerLines|]; [|intros _ i name H; discriminate].
  intros Hnodup i name Hi.
  rewrite list_lookup_fmap in Hi.
  destruct (headerLines !! i) as [line|] eqn:Hline; [|discriminate].
  injection Hi as <-.
  rewrite (_getTargetIds_loop_last headerLines 0 ∅ i line Hline);
    [reflexivity|].
  intros j line' Hlt Hj Heq.
  assert (Hi' : map SN headerLines !! i = Some (SN line))
    by (now rewrite list_lookup_fmap, Hline).
  assert (Hj' : map SN headerLines !! j = Some (SN line))
    by (now rewrite list_lookup_fmap, Hj, <- Heq).
  pose proof (NoDup_lookup _ _ _ _ Hnodup Hi' Hj'). lia.
Qed.

Lemma X8_getTargetIds_dense_witness :
  _getTargetIds two_sequence_header !! "chr2" = Some 1.
Proof.
  refine (X8_getTargetIds_dense two_sequence_header _ 1%nat "chr2" eq_refl).
  cbn. repeat constructor; rewrite list_elem_of_In; cbn; intuition discriminate.
Defined.

(** X9: the table holds a name exactly when a sequence line of the header
    carries it, and the id it holds is the index of such a line, so it lies
    between 0 and the number of lines. *)
Theorem X9_getTargetIds_domain (header : Header) (k : string) :
  (_getTargetIds header !! k = None <-> k ∉ header_names header)
  /\ (forall v, _getTargetIds header !! k = Some v ->
        0 <= v < Z.of_nat (length (header_names header))
        /\ header_names header !! Z.to_nat v = Some k).
Proof.
  unfold header_names, _getTargetIds.
  destruct (SQ header) as [headerLines|].
  - assert (Hsome : forall v,
               _getTargetIds_loop headerLines 0 ∅ !! k = Some v ->
               0 <= v < Z.of_nat (length (map SN headerLines))
               /\ map SN headerLines !! Z.to_nat v = Some k).
    { intros v Hv.
      apply _getTargetIds_loop_lookup in Hv
        as [Hv | (i & line & Hi & Hk & ->)];
        [rewrite lookup_empty in Hv; discriminate|].
      rewrite Z.add_0_l, Nat2Z.id, length_map.
      split; [apply lookup_lt_Some in Hi; lia|].
      now rewrite list_lookup_fmap, Hi, <- Hk. }
    split; [|exact Hsome]. split.
    + intros Hnone Hin.
      destruct (_getTargetIds_loop_member headerLines 0 ∅ k Hin) as [v Hv].
      rewrite Hv in Hnone. discriminate.
    + intros Hnot. rewrite _getTargetIds_loop_other by exact Hnot.
      apply lookup_empty.
  - split; [|intros v Hv; rewrite lookup_empty in Hv; discriminate].
    split; [intros _; apply not_elem_of_nil | intros _; apply lookup_empty].
Qed.

Lemma X9_getTargetIds_domain_witness :
  _getTargetIds two_sequence_header !! "chrX" = None
  /\ (0 <= 1 < 2 /\ header_names two_sequence_header !! 1%nat = Some "chr2").
Proof.
  destruct (X9_getTargetIds_domain two_sequence_header "chrX") as [Hnone _].
  destruct (X9_getTargetIds_domain two_sequence_header "chr2") as [_ Hsome].
  split.
  - apply Hnone. cbn. rewrite list_elem_of_In. cbn. intuition discriminate.
  - exact (Hsome 1 eq_refl).
Defined.

Lemma converter_table_is_singleton (reference : Reference.t)
  (k : string) :
  _getTargetIds (_getHeader reference) = {[ Reference.name reference := 0 ]}
  /\ defaultdict_value k (_getTargetIds (_getHeader reference)) = 0.
Proof.
  assert (H : _getTargetIds (_getHeader reference)
              = {[ Reference.name reference := 0 ]}) by reflexivity.
  split; [exact H|]. rewrite H. unfold defaultdict_value.
  destruct (decide (Reference.name reference = k)) as [<- | Hne].
  - now rewrite lookup_singleton_eq.
  - now rewrite lookup_singleton_ne.
Qed.

(** X10: the header the converter builds lists its one reference, so the
    table it derives holds that name with id 0 and nothing else, and every
    lookup the transcoder makes in it, of whatever name, answers 0. *)
Theorem X10_converter_table_is_singleton (reference : Reference.t)
  (k : string) :
  _getTargetIds (_getHeader reference) = {[ Reference.name reference := 0 ]}
  /\ defaultdict_value k (_getTargetIds (_getHeader reference)) = 0.
Proof. exact (converter_table_is_singleton reference k). Qed.

End TargetIds.

(** ** [SamLine.toSamFlag]: the other bits, and the flag as a whole *)

Section FlagWord.

Import SamFlags ReadAlignment.

Ltac flag_bit_at k :=
  match goal with
  | |- context [isFlagSet _ ?B] => change B with (2 ^ k)
  end;
  rewrite isFlagSet_bit by lia;
  rewrite flag_of_testbit; unfold flag_bit; cbn;
  rewrite ?andb_false_r, ?andb_true_r, ?orb_false_r; cbn [orb];
  rewrite ?orb_false_r.

Lemma flag_READ_PROPER_PAIR r m :
  isFlagSet (flag_of r m) READ_PROPER_PAIR = negb (improper_placement r).
Proof. flag_bit_at 1. reflexivity. Qed.

Lemma flag_READ_REVERSE_STRAND r m :
  isFlagSet (flag_of r m) READ_REVERSE_STRAND
  = SamLine.is_neg_strand (option_map LinearAlignment.position (alignment r)).
Proof. flag_bit_at 4. reflexivity. Qed.

Lemma flag_MATE_REVERSE_STRAND r m :
  isFlagSet (flag_of r m) MATE_REVERSE_STRAND
  = SamLine.is_neg_strand (Some m).
Proof. flag_bit_at 5. reflexivity. Qed.

Lemma flag_SECONDARY_ALIGNMENT r m :
  isFlagSet (flag_of r m) SECONDARY_ALIGNMENT = secondary_alignment r.
Proof. flag_bit_at 8. reflexivity. Qed.

Lemma flag_FAILED_QUALITY_CHECK r m :
  isFlagSet (flag_of r m) FAILED_QUALITY_CHECK
  = failed_vendor_quality_checks r.
Proof. flag_bit_at 9. reflexivity. Qed.

Lemma flag_DUPLICATE_READ r m :
  isFlagSet (flag_of r m) DUPLICATE_READ = duplicate_fragment r.
Proof. flag_bit_at 10. reflexivity. Qed.

Lemma flag_SUPPLEMENTARY_ALIGNMENT r m :
  isFlagSet (flag_of r m) SUPPLEMENTARY_ALIGNMENT = supplementary_alignment r.
Proof. flag_bit_at 11. reflexivity. Qed.

(** X11: for a record whose flag is computed, the paired bit is set exactly
    when [number_reads] is 2, the proper-pair bit exactly when
    [improper_placement] is false (whatever [number_reads] is), the
    read-unmapped bit exactly when there is no alignment, each
    reverse-strand bit exactly when the alignment, or the mate position,
    is on [NEG_STRAND], and the secondary, failed-quality, duplicate and
    supplementary bits copy their boolean fields. *)
Theorem X11_flag_bits_from_record (read : ReadAlignment.t) (m : Position.t) :
  next_mate_position read = Some m ->
  exists flag,
    SamLine.toSamFlag read = ok flag
    /\ isFlagSet flag READ_PAIRED = (number_reads read =? 2)
    /\ isFlagSet flag READ_PROPER_PAIR = negb (improper_placement read)
    /\ isFlagSet flag READ_UNMAPPED = SamLine.is_None (alignment read)
    /\ isFlagSet flag READ_REVERSE_STRAND
       = match alignment read with
         | Some a =>
             bool_decide
               (Position.strand (LinearAlignment.position a) = NEG_STRAND)
         | None => false
         end
    /\ isFlagSet flag MATE_REVERSE_STRAND
       = bool_decide (Position.strand m = NEG_STRAND)
    /\ isFlagSet flag SECONDARY_ALIGNMENT = secondary_alignment read
    /\ isFlagSet flag FAILED_QUALITY_CHECK
       = failed_vendor_quality_checks read
    /\ isFlagSet flag DUPLICATE_READ = duplicate_fragment read
    /\ isFlagSet flag SUPPLEMENTARY_ALIGNMENT = supplementary_alignment read.
Proof.
  intros Hm. exists (flag_of read m). split; [now apply toSamFlag_present|].
  rewrite flag_READ_PAIRED, flag_READ_PROPER_PAIR, flag_READ_UNMAPPED,
    flag_READ_REVERSE_STRAND, flag_MATE_REVERSE_STRAND,
    flag_SECONDARY_ALIGNMENT, flag_FAILED_QUALITY_CHECK, flag_DUPLICATE_READ,
    flag_SUPPLEMENTARY_ALIGNMENT.
  destruct (alignment read); repeat split.
Qed.

Lemma X11_flag_bits_from_record_witness :
  exists flag,
    SamLine.toSamFlag scenario_read = ok flag
    /\ isFlagSet flag READ_PROPER_PAIR = true
    /\ isFlagSet flag READ_UNMAPPED = false.
Proof.
  destruct (X11_flag_bits_from_record scenario_read
              (Position.Build "chr1" 200 POS_STRAND) eq_refl)
    as (flag & Hflag & _ & Hproper & Hunmapped & _).
  exists flag. split; [exact Hflag|]. split; [exact Hproper | exact Hunmapped].
Defined.

Lemma cond_set_nonneg (c : bool) (bit flag : Z) :
  0 <= bit -> 0 <= flag -> 0 <= cond_set c bit flag.
Proof.
  intros Hbit Hflag. unfold cond_set, setFlag.
  destruct c; [now apply Z.lor_nonneg | exact Hflag].
Qed.

Lemma pair_member_nonneg (rn flag : Z) : 0 <= flag -> 0 <= pair_member rn flag.
Proof.
  intros Hflag. unfold pair_member, setFlag.
  destruct (rn =? -1); [exact Hflag|].
  destruct (rn =? 0); [now apply Z.lor_nonneg|].
  destruct (rn =? 1); [now apply Z.lor_nonneg|].
  apply Z.lor_nonneg. split; [now apply Z.lor_nonneg | discriminate].
Qed.

Lemma flag_of_nonneg r m : 0 <= flag_of r m.
Proof.
  unfold flag_of. cbv zeta.
  repeat first [ apply cond_set_nonneg; [discriminate|]
               | apply pair_member_nonneg ].
  reflexivity.
Qed.

Lemma flag_constant_high_bits (B n : Z) :
  In B all_flags -> 12 <= n -> Z.testbit B n = false.
Proof.
  intros HB Hn.
  assert (Hpow : exists k, 0 <= k < 12 /\ B = 2 ^ k).
  { cbn in HB.
    repeat (destruct HB as [<- | HB];
            [first [ exists 0; split; [lia | reflexivity]
                   | exists 1; split; [lia | reflexivity]
                   | exists 2; split; [lia | reflexivity]
                   | exists 3; split; [lia | reflexivity]
                   | exists 4; split; [lia | reflexivity]
                   | exists 5; split; [lia | reflexivity]
                   | exists 6; split; [lia | reflexivity]
                   | exists 7; split; [lia | reflexivity]
                   | exists 8; split; [lia | reflexivity]
                   | exists 9; split; [lia | reflexivity]
                   | exists 10; split; [lia | reflexivity]
                   | exists 11; split; [lia | reflexivity] ]|]).
    contradiction. }
  destruct Hpow as (k & Hk & ->).
  rewrite Z.pow2_bits_eqb by lia. apply Z.eqb_neq. lia.
Qed.

Lemma flag_of_high_bits r m n : 12 <= n -> Z.testbit (flag_of r m) n = false.
Proof.
  intros Hn. rewrite flag_of_testbit. unfold flag_bit. cbv zeta.
  rewrite !(fun B HB => flag_constant_high_bits B n HB Hn)
    by (cbn; tauto).
  now rewrite !andb_false_r.
Qed.

(** X12: every flag [toSamFlag] returns is a twelve-bit number: it is not
    negative and below [0x1000]. *)
Theorem X12_flag_is_twelve_bits (read : ReadAlignment.t) (flag : Z) :
  SamLine.toSamFlag read = ok flag -> 0 <= flag < 0x1000.
Proof.
  intros H.
  destruct (next_mate_position read) as [m|] eqn:Hm;
    [|rewrite (toSamFlag_absent read Hm) in H; discriminate].
  rewrite (toSamFlag_present read m Hm) in H. injection H as <-.
  pose proof (flag_of_nonneg read m) as Hnonneg.
  split; [exact Hnonneg|].
  destruct (Z_lt_dec (flag_of read m) 0x1000) as [|Hge]; [assumption|].
  exfalso.
  assert (Hpos : 0 < flag_of read m) by lia.
  assert (Hlog : 12 <= Z.log2 (flag_of read m)).
  { apply Z.log2_le_pow2; [exact Hpos|]. change (2 ^ 12) with 0x1000. lia. }
  pose proof (Z.bit_log2 _ Hpos) as Hbit.
  rewrite flag_of_high_bits in Hbit by exact Hlog. discriminate.
Qed.

Lemma X12_flag_is_twelve_bits_witness : 0 <= 0x43 < 0x1000.
Proof. apply (X12_flag_is_twelve_bits scenario_read 0x43). reflexivity. Defined.

(** X13: no flag [toSamFlag] returns has both the read-unmapped and the
    read-reverse-strand bit, nor both the mate-unmapped and the
    mate-reverse-strand bit. *)
Theorem X13_unmapped_excludes_reverse (read : ReadAlignment.t) (flag : Z) :
  SamLine.toSamFlag read = ok flag ->
  isFlagSet flag READ_UNMAPPED && isFlagSet flag READ_REVERSE_STRAND = false
  /\ isFlagSet flag MATE_UNMAPPED && isFlagSet flag MATE_REVERSE_STRAND
     = false.
Proof.
  intros H.
  destruct (next_mate_position read) as [m|] eqn:Hm;
    [|rewrite (toSamFlag_absent read Hm) in H; discriminate].
  rewrite (toSamFlag_present read m Hm) in H. injection H as <-.
  rewrite flag_READ_UNMAPPED, flag_READ_REVERSE_STRAND, flag_MATE_UNMAPPED,
    flag_MATE_REVERSE_STRAND.
  split.
  - destruct (alignment read); [reflexivity | apply andb_false_r].
  - destruct (ByteSize m =? 0) eqn:Hsize; [|reflexivity].
    apply Z.eqb_eq, ByteSize_zero_iff in Hsize. subst m. reflexivity.
Qed.

Lemma X13_unmapped_excludes_reverse_witness :
  exists flag,
    SamLine.toSamFlag cleared_mate_read = ok flag
    /\ isFlagSet flag MATE_UNMAPPED && isFlagSet flag MATE_REVERSE_STRAND
       = false.
Proof.
  exists 0x4b. split; [reflexivity|].
  exact (proj2 (X13_unmapped_excludes_reverse cleared_mate_read 0x4b eq_refl)).
Defined.

End FlagWord.

(** ** [SamLine.toCigar], [SamLine.toTags] and the outcome of the transcoder *)

Section Outcome.

Import SamFlags ReadAlignment.

(** X14: [toCigar] is empty for a record without alignment; otherwise it
    has one tuple per CIGAR unit, in order, with the unit's length, and with
    a code between 0 and 8 that [int2ga] maps back to the unit's operation,
    or [None] exactly for [OPERATION_UNSPECIFIED]. *)
Theorem X14_toCigar_tuples (read : ReadAlignment.t) :
  (alignment read = None -> SamLine.toCigar read = [])
  /\ (forall a, alignment read = Some a ->
        Forall2
          (fun gaCigarUnit cigarTuple =>
             snd cigarTuple = CigarUnit.operation_length gaCigarUnit
             /\ (fst cigarTuple = None
                 <-> CigarUnit.operation gaCigarUnit = OPERATION_UNSPECIFIED)
             /\ (forall code, fst cigarTuple = Some code ->
                   0 <= code <= 8
                   /\ SamCigar.int2ga code
                      = ok (CigarUnit.operation gaCigarUnit)))
          (LinearAlignment.cigar a) (SamLine.toCigar read)).
Proof.
  unfold SamLine.toCigar. split; [now intros ->|].
  intros a ->. induction (LinearAlignment.cigar a) as [|u units IH];
    cbn [map]; constructor; [|exact IH].
  unfold SamLine.toCigarTuple. cbn [fst snd].
  split; [reflexivity|]. split; [apply ga2int_None_iff|].
  intros code Hcode. destruct (CigarUnit.operation u); cbv in Hcode;
    try discriminate; injection Hcode as <-; (split; [lia | reflexivity]).
Qed.

Lemma X14_toCigar_tuples_witness :
  SamLine.toCigar unmapped_read = []
  /\ Forall2
       (fun gaCigarUnit cigarTuple =>
          snd cigarTuple = CigarUnit.operation_length gaCigarUnit
          /\ (fst cigarTuple = None
              <-> CigarUnit.operation gaCigarUnit = OPERATION_UNSPECIFIED)
          /\ (forall code, fst cigarTuple = Some code ->
                0 <= code <= 8
                /\ SamCigar.int2ga code
                   = ok (CigarUnit.operation gaCigarUnit)))
       [CigarUnit.Build ALIGNMENT_MATCH 4] (SamLine.toCigar scenario_read).
Proof.
  split.
  - exact (proj1 (X14_toCigar_tuples unmapped_read) eq_refl).
  - exact (proj2 (X14_toCigar_tuples scenario_read)
             (match4_at "chr1" 100) eq_refl).
Defined.
(** X15: [toTags] returns exactly when every tag has a value list that
    [_parseTagValue] accepts: one that is not empty and is not a single
    text with a character outside ASCII.  When it returns, the tags carry
    the names of the attributes in their order, each with the value the
    three cases give.  Otherwise it raises the exception of the first value
    list that is refused: [IndexError] for an empty one,
    [UnicodeEncodeError] for a text outside ASCII. *)
Theorem X15_toTags_outcome (read : ReadAlignment.t) :
  (tags_ok read <-> exists tags, SamLine.toTags read = ok tags)
  /\ (forall tags, SamLine.toTags read = ok tags ->
        Forall2 (fun item out => fst out = fst item
                                 /\ spec_tag_value (snd item) (snd out))
          (attributes read) tags)
  /\ (forall good tag values rest,
        attributes read = (good ++ (tag, values) :: rest)%list ->
        Forall (fun item : string * list AttributeValue =>
                  tag_values_ok (snd item) = true) good ->
        tag_values_ok values = false ->
        SamLine.toTags read
        = raise (match values with
                 | [] => IndexError
                 | _ => UnicodeEncodeError
                 end)).
Proof.
  unfold tags_ok, SamLine.toTags. split; [|split].
  - split.
    + intros Hok. destruct (toTags_loop_ok _ Hok) as (tags & Htags & _).
      eauto.
    + intros [tags Htags]. exact (toTags_loop_returned _ _ Htags).
  - intros tags Htags.
    destruct (toTags_loop_ok _ (toTags_loop_returned _ _ Htags))
      as (tags' & Htags' & Hall).
    rewrite Htags in Htags'. injection Htags' as <-. exact Hall.
  - intros good tag values rest -> Hgood Hbad.
    exact (toTags_loop_stops good tag values rest Hgood Hbad).
Qed.

Lemma X15_toTags_outcome_witness :
  (exists tags, SamLine.toTags scenario_read = ok tags)
  /\ SamLine.toTags valueless_tag_read = raise IndexError
  /\ SamLine.toTags non_ascii_tag_read = raise UnicodeEncodeError.
Proof.
  split; [|split].
  - apply (proj1 (proj1 (X15_toTags_outcome scenario_read))). constructor.
  - apply (proj2 (proj2 (X15_toTags_outcome valueless_tag_read))
             [("NM", [int64_value 1])] "XX" [] []);
      [reflexivity | repeat constructor | reflexivity].
  - apply (proj2 (proj2 (X15_toTags_outcome non_ascii_tag_read))
             [] "XA" [string_value non_ascii_text] []);
      [reflexivity | constructor | reflexivity].
Defined.

(** What a returned segment tells about the record: its mate position is a
    message, and every tag has a value list [_parseTagValue] accepts. *)
Lemma toAlignedSegment_accepted (read : ReadAlignment.t)
  (d d' : gmap string Z) (seg : AlignedSegment.t) :
  SamLine.toAlignedSegment read d = ok (seg, d') ->
  (exists m, next_mate_position read = Some m)
  /\ tags_ok read
  /\ Forall2 (fun item out => fst out = fst item
                              /\ spec_tag_value (snd item) (snd out))
       (attributes read) (AlignedSegment.tags seg).
Proof.
  intros Hrun.
  destruct (toAlignedSegment_inv _ _ _ _ Hrun) as (m & tags & Hm & Htags).
  destruct (toAlignedSegment_present read m tags d Hm Htags)
    as (seg0 & d0 & Hrun0 & Hseg0).
  rewrite Hrun in Hrun0. injection Hrun0 as <- <-.
  assert (Hok : tags_ok read) by exact (toTags_loop_returned _ _ Htags).
  split; [eauto|]. split; [exact Hok|].
  destruct (toTags_loop_ok _ Hok) as (tags' & Htags' & Hall).
  unfold SamLine.toTags in Htags. rewrite Htags in Htags'.
  injection Htags' as <-.
  replace (AlignedSegment.tags seg) with tags; [exact Hall|].
  destruct (toAlignedSegment_fields _ _ _ _ Hrun)
    as (_ & _ & _ & _ & _ & Ht & _).
  unfold SamLine.toTags in Ht. rewrite Htags in Ht. now injection Ht.
Qed.

(** X16: the transcoder returns a segment only for a record whose mate
    position is a message and whose tags all have a value list that
    [_parseTagValue] accepts; the tags of the segment then carry the names
    of the attributes in their order, each with the value the three cases
    give.  So a record with a tag without value, or with a tag whose single
    value is a text outside ASCII, gets no segment, whatever the
    dictionary. *)
Theorem X16_transcoder_outcome (read : ReadAlignment.t) :
  (forall (d d' : gmap string Z) (seg : AlignedSegment.t),
     SamLine.toAlignedSegment read d = ok (seg, d') ->
     (exists m, next_mate_position read = Some m)
     /\ tags_ok read
     /\ Forall2 (fun item out => fst out = fst item
                                 /\ spec_tag_value (snd item) (snd out))
          (attributes read) (AlignedSegment.tags seg))
  /\ (~ tags_ok read ->
      forall (d d' : gmap string Z) (seg : AlignedSegment.t),
        SamLine.toAlignedSegment read d <> ok (seg, d')).
Proof.
  split.
  - intros d d' seg. apply toAlignedSegment_accepted.
  - intros Hbad d d' seg Hrun.
    now destruct (toAlignedSegment_accepted _ _ _ _ Hrun) as (_ & Hok & _).
Qed.

Lemma X16_transcoder_outcome_witness :
  (exists seg d',
     SamLine.toAlignedSegment scenario_read chr1_targetIds = ok (seg, d')
     /\ tags_ok scenario_read
     /\ AlignedSegment.tags seg = [])
  /\ (forall d d' seg,
        SamLine.toAlignedSegment non_ascii_tag_read d <> ok (seg, d')).
Proof.
  split.
  - destruct (SamLine.toAlignedSegment scenario_read chr1_targetIds)
      as [e|[seg d']] eqn:Hrun; [vm_compute in Hrun; discriminate|].
    exists seg, d'. split; [reflexivity|].
    destruct (proj1 (X16_transcoder_outcome scenario_read) _ _ _ Hrun)
      as (_ & Hok & Hall).
    split; [exact Hok|]. now inversion Hall.
  - apply (proj2 (X16_transcoder_outcome non_ascii_tag_read)).
    intros Hok. inversion Hok as [|? ? Hhead _]. discriminate.
Defined.

End Outcome.

(** ** The segment, the dictionary, and whole runs *)

Section Runs.

Import SamFlags ReadAlignment.

(** X17: every field of a segment the transcoder returns: name, sequence,
    qualities and template length are copied from the record; flag, tags
    and CIGAR are what [toSamFlag], [toTags] and [toCigar] return; with an
    alignment the reference id is what the dictionary answers for its
    reference name and position and mapping quality are the alignment's,
    without one they are [-1], [0] and [0]; the mate reference id is what
    the dictionary answers for the mate's reference name and the mate
    position is the mate's. *)
Theorem X17_segment_fields (read : ReadAlignment.t) (d d' : gmap string Z)
  (seg : AlignedSegment.t) :
  SamLine.toAlignedSegment read d = ok (seg, d') ->
  AlignedSegment.query_name seg = fragment_name read
  /\ AlignedSegment.query_sequence seg = aligned_sequence read
  /\ AlignedSegment.query_qualities seg = aligned_quality read
  /\ AlignedSegment.template_length seg = fragment_length read
  /\ SamLine.toSamFlag read = ok (AlignedSegment.flag seg)
  /\ SamLine.toTags read = ok (AlignedSegment.tags seg)
  /\ AlignedSegment.cigar seg = SamLine.toCigar read
  /\ match alignment read with
     | Some a =>
         AlignedSegment.reference_id seg
         = defaultdict_value
             (Position.reference_name (LinearAlignment.position a)) d
         /\ AlignedSegment.reference_start seg
            = Position.position (LinearAlignment.position a)
         /\ AlignedSegment.mapping_quality seg
            = LinearAlignment.mapping_quality a
     | None =>
         AlignedSegment.reference_id seg = -1
         /\ AlignedSegment.reference_start seg = 0
         /\ AlignedSegment.mapping_quality seg = 0
     end
  /\ exists m,
       next_mate_position read = Some m
       /\ AlignedSegment.next_reference_id seg
          = defaultdict_value (Position.reference_name m) d
       /\ AlignedSegment.next_reference_start seg = Position.position m.
Proof. exact (toAlignedSegment_fields read d d' seg). Qed.

Lemma X17_segment_fields_witness :
  exists seg d',
    SamLine.toAlignedSegment unknown_reference_read chr1_targetIds
    = ok (seg, d')
    /\ AlignedSegment.query_name seg = "r1"
    /\ AlignedSegment.template_length seg = 150.
Proof.
  destruct (SamLine.toAlignedSegment unknown_reference_read chr1_targetIds)
    as [e|[seg d']] eqn:Hrun; [vm_compute in Hrun; discriminate|].
  exists seg, d'. split; [reflexivity|].
  destruct (X17_segment_fields _ _ _ _ Hrun) as (Hname & _ & _ & Htlen & _).
  split; [exact Hname | exact Htlen].
Defined.

(** X18: a call of the transcoder never changes or removes an entry of
    [targetIds]; the entries it adds hold 0; and every later [targetIds[k]]
    answers as it would have before the call. *)
Theorem X18_dictionary_only_grows (read : ReadAlignment.t)
  (d d' : gmap string Z) (seg : AlignedSegment.t) :
  SamLine.toAlignedSegment read d = ok (seg, d') ->
  (forall k v, d !! k = Some v -> d' !! k = Some v)
  /\ (forall k, d !! k = None -> d' !! k = None \/ d' !! k = Some 0)
  /\ same_values d d'.
Proof. exact (toAlignedSegment_dictionary_grows read d d' seg). Qed.

Lemma X18_dictionary_only_grows_witness :
  exists seg d',
    SamLine.toAlignedSegment unknown_reference_read chr1_targetIds
    = ok (seg, d')
    /\ d' !! "chr1" = Some 0
    /\ same_values chr1_targetIds d'.
Proof.
  destruct (SamLine.toAlignedSegment unknown_reference_read chr1_targetIds)
    as [e|[seg d']] eqn:Hrun; [vm_compute in Hrun; discriminate|].
  exists seg, d'. split; [reflexivity|].
  destruct (X18_dictionary_only_grows _ _ _ _ Hrun) as (Hold & _ & Hsame).
  split; [apply Hold; reflexivity | exact Hsame].
Defined.

(** X19: the segment depends on [targetIds] only through the answers to
    [targetIds[k]]: two dictionaries that answer alike give the same segment,
    and answer alike afterwards. *)
Theorem X19_segment_depends_on_values (read : ReadAlignment.t)
  (d1 d2 d1' : gmap string Z) (seg : AlignedSegment.t) :
  same_values d1 d2 ->
  SamLine.toAlignedSegment read d1 = ok (seg, d1') ->
  exists d2',
    SamLine.toAlignedSegment read d2 = ok (seg, d2') /\ same_values d1' d2'.
Proof. exact (toAlignedSegment_same_values read d1 d2 d1' seg). Qed.

Lemma X19_segment_depends_on_values_witness :
  exists seg d1' d2',
    SamLine.toAlignedSegment scenario_read chr1_targetIds = ok (seg, d1')
    /\ SamLine.toAlignedSegment scenario_read ∅ = ok (seg, d2').
Proof.
  destruct (SamLine.toAlignedSegment scenario_read chr1_targetIds)
    as [e|[seg d1']] eqn:Hrun; [vm_compute in Hrun; discriminate|].
  assert (Hsame : same_values chr1_targetIds ∅).
  { intros k. unfold chr1_targetIds.
    rewrite (proj2 (converter_table_is_singleton chr1 k)).
    reflexivity. }
  destruct (X19_segment_depends_on_values _ _ _ _ _ Hsame Hrun)
    as (d2' & Hrun2 & _).
  now exists seg, d1', d2'.
Defined.

End Runs.

(** ** [SamConverter.convert]: whole runs *)

Section WholeRuns.

Import SamFlags ReadAlignment.

Lemma same_values_sym (d d' : gmap string Z) :
  same_values d d' -> same_values d' d.
Proof. intros H k. symmetry. apply H. Qed.

Lemma same_values_trans (d1 d2 d3 : gmap string Z) :
  same_values d1 d2 -> same_values d2 d3 -> same_values d1 d3.
Proof. intros H12 H23 k. now rewrite (H12 k). Qed.

Lemma convert_loop_cons (read : ReadAlignment.t) (rest : list ReadAlignment.t)
  (d : gmap string Z) :
  convert_loop (read :: rest) d
  = match SamLine.toAlignedSegment read d with
    | inl e => inl e
    | inr (seg, d1) =>
        match convert_loop rest d1 with
        | inl e => inl e
        | inr (segs, d2) => inr (seg :: segs, d2)
        end
    end.
Proof.
  cbn [convert_loop]. unfold bindM, retM.
  destruct (SamLine.toAlignedSegment read d) as [e|[seg d1]]; [reflexivity|].
  destruct (convert_loop rest d1) as [e|[segs d2]]; reflexivity.
Qed.

(** Every segment of a run is the one its record gives against the
    dictionary the run started with. *)
Lemma convert_loop_per_read (reads : list ReadAlignment.t) :
  forall (d d' : gmap string Z) (segs : list AlignedSegment.t),
    convert_loop reads d = ok (segs, d') ->
    Forall2 (fun read seg =>
               exists d'', SamLine.toAlignedSegment read d = ok (seg, d''))
      reads segs
    /\ same_values d d'
    /\ (forall k v, d !! k = Some v -> d' !! k = Some v).
Proof.
  induction reads as [|read rest IH]; intros d d' segs Hrun.
  - injection Hrun as <- <-. split; [constructor|]. split; [|auto].
    intros k. reflexivity.
  - rewrite convert_loop_cons in Hrun.
    destruct (SamLine.toAlignedSegment read d) as [e|[seg d1]] eqn:Hread;
      [discriminate|].
    destruct (convert_loop rest d1) as [e|[segs' d2]] eqn:Hrest;
      [discriminate|].
    injection Hrun as <- <-.
    destruct (toAlignedSegment_dictionary_grows _ _ _ _ Hread)
      as (Hold1 & _ & Hsame1).
    destruct (IH d1 d2 segs' Hrest) as (Hall & Hsame2 & Hold2).
    split; [|split].
    + constructor; [eauto|].
      eapply Forall2_impl; [exact Hall|].
      intros r s [d'' Hrs]. cbv beta.
      destruct (toAlignedSegment_same_values r d1 d d'' s
                  (same_values_sym _ _ Hsame1) Hrs) as (d3 & Hd3 & _).
      eauto.
    + exact (same_values_trans _ _ _ Hsame1 Hsame2).
    + auto.
Qed.

(** X20: in a run over several records, every segment is the one its
    record gives against the dictionary the run started with: the names
    earlier records stored in the shared [defaultdict] change no later
    segment; the dictionary at the end keeps every entry it had and answers
    every lookup as at the start. *)
Theorem X20_run_is_per_record (reads : list ReadAlignment.t)
  (d d' : gmap string Z) (segs : list AlignedSegment.t) :
  convert_loop reads d = ok (segs, d') ->
  Forall2 (fun read seg =>
             exists d'', SamLine.toAlignedSegment read d = ok (seg, d''))
    reads segs
  /\ same_values d d'
  /\ (forall k v, d !! k = Some v -> d' !! k = Some v).
Proof. exact (convert_loop_per_read reads d d' segs). Qed.

Lemma X20_run_is_per_record_witness :
  exists segs d',
    convert_loop [unknown_reference_read; scenario_read] chr1_targetIds
    = ok (segs, d')
    /\ Forall2 (fun read seg =>
                  exists d'',
                    SamLine.toAlignedSegment read chr1_targetIds
                    = ok (seg, d''))
         [unknown_reference_read; scenario_read] segs.
Proof.
  destruct (convert_loop [unknown_reference_read; scenario_read]
              chr1_targetIds) as [e|[segs d']] eqn:Hrun;
    [vm_compute in Hrun; discriminate|].
  exists segs, d'. split; [reflexivity|].
  exact (proj1 (X20_run_is_per_record _ _ _ _ Hrun)).
Defined.

Lemma convert_ok_iff (reference : Reference.t)
  (reads : list ReadAlignment.t) (header : SamConverter.Header)
  (segs : list AlignedSegment.t) :
  convert reference reads = ok (header, segs)
  <-> header = SamConverter._getHeader reference
      /\ exists d', convert_loop reads
                      (SamConverter._getTargetIds
                         (SamConverter._getHeader reference))
                    = ok (segs, d').
Proof.
  unfold convert. cbv zeta.
  destruct (convert_loop reads _) as [e|[segs0 d0]]; cbn [bindE fst].
  - split; [discriminate | intros [_ [d' H]]; discriminate].
  - unfold ok. split.
    + intros [= <- <-]. split; [reflexivity | eauto].
    + intros [-> [d' [= <- _]]]. reflexivity.
Qed.

(** Whether the transcoder raises, and what, does not depend on the
    dictionary. *)
Lemma toAlignedSegment_raise_any (read : ReadAlignment.t)
  (d1 d2 : gmap string Z) (e : PyExc) :
  SamLine.toAlignedSegment read d1 = raise e ->
  SamLine.toAlignedSegment read d2 = raise e.
Proof.
  intros Hrun. destruct (next_mate_position read) as [m|] eqn:Hm.
  - destruct (SamLine.toTags read) as [e'|tags] eqn:Htags.
    + rewrite (toAlignedSegment_tags_raise read m d1 e' Hm Htags) in Hrun.
      rewrite (toAlignedSegment_tags_raise read m d2 e' Hm Htags).
      exact Hrun.
    + destruct (toAlignedSegment_present read m tags d1 Hm Htags)
        as (seg & d' & Hok & _).
      rewrite Hok in Hrun. discriminate.
  - rewrite (toAlignedSegment_absent_mate read d1 Hm) in Hrun.
    rewrite (toAlignedSegment_absent_mate read d2 Hm). exact Hrun.
Qed.

(** A run stops at the first record on which the transcoder raises. *)
Lemma convert_loop_stops (good : list ReadAlignment.t) :
  forall (bad : ReadAlignment.t) (rest : list ReadAlignment.t)
         (d d' : gmap string Z) (segs : list AlignedSegment.t) (e : PyExc),
    convert_loop good d = ok (segs, d') ->
    SamLine.toAlignedSegment bad d = raise e ->
    convert_loop (good ++ bad :: rest) d = raise e.
Proof.
  induction good as [|read good IH]; intros bad rest d d' segs e Hrun Hbad.
  - cbn [app]. rewrite convert_loop_cons. now rewrite Hbad.
  - rewrite convert_loop_cons in Hrun. cbn [app]. rewrite convert_loop_cons.
    destruct (SamLine.toAlignedSegment read d) as [e0|[seg d1]];
      [discriminate|].
    destruct (convert_loop good d1) as [e0|[segs' d2]] eqn:Hgood;
      [discriminate|].
    now rewrite (IH bad rest d1 d2 segs' e Hgood
                   (toAlignedSegment_raise_any bad d d1 e Hbad)).
Qed.

(** X21: when [convert] returns, it returns the header of the reference
    and one segment per record, in the order of the records, and every
    record had a mate position and tags that [_parseTagValue] accepts;
    and when the records before some record give a run that returns while
    the transcoder raises on that record against the table of the run,
    [convert] raises that exception, whatever follows. *)
Theorem X21_convert_outcome (reference : Reference.t)
  (reads : list ReadAlignment.t) :
  (forall header segs,
     convert reference reads = ok (header, segs) ->
     header = SamConverter._getHeader reference
     /\ length segs = length reads
     /\ map AlignedSegment.query_name segs = map fragment_name reads
     /\ Forall (fun read => (exists m, next_mate_position read = Some m)
                            /\ tags_ok read) reads)
  /\ (forall (good : list ReadAlignment.t) bad rest e header segs,
        reads = (good ++ bad :: rest)%list ->
        convert reference good = ok (header, segs) ->
        SamLine.toAlignedSegment bad
          (SamConverter._getTargetIds (SamConverter._getHeader reference))
        = raise e ->
        convert reference reads = raise e).
Proof.
  split.
  - intros header segs Hrun.
    apply convert_ok_iff in Hrun as [-> [d' Hrun]].
    split; [reflexivity|].
    apply convert_loop_per_read in Hrun as [Hall _].
    split; [symmetry; exact (Forall2_length _ _ _ Hall)|].
    split.
    + induction Hall as [|read seg reads' segs' [d'' Hrs] _ IH];
        [reflexivity|].
      cbn [map]. rewrite IH.
      now destruct (toAlignedSegment_fields _ _ _ _ Hrs) as (-> & _).
    + induction Hall as [|read seg reads' segs' [d'' Hrs] _ IH];
        constructor; [|exact IH].
      destruct (toAlignedSegment_accepted _ _ _ _ Hrs) as (Hm & Hok & _).
      now split.
  - intros good bad rest e header segs -> Hgood Hbad.
    apply convert_ok_iff in Hgood as [_ [d' Hgood]].
    unfold convert. cbv zeta.
    now rewrite (convert_loop_stops good bad rest _ d' segs e Hgood Hbad).
Qed.

Lemma X21_convert_outcome_witness :
  (exists segs,
     convert chr1 [scenario_read; cleared_mate_read]
     = ok (SamConverter._getHeader chr1, segs)
     /\ length segs = 2%nat)
  /\ convert chr1 [scenario_read; non_ascii_tag_read; scenario_read]
     = raise UnicodeEncodeError.
Proof.
  split.
  - destruct (convert chr1 [scenario_read; cleared_mate_read])
      as [e|[header segs]] eqn:Hrun; [vm_compute in Hrun; discriminate|].
    destruct (proj1 (X21_convert_outcome chr1
                       [scenario_read; cleared_mate_read]) _ _ Hrun)
      as (-> & Hlen & _).
    exists segs. split; [reflexivity | exact Hlen].
  - destruct (convert chr1 [scenario_read]) as [e|[header segs]] eqn:Hgood;
      [vm_compute in Hgood; discriminate|].
    apply (proj2 (X21_convert_outcome chr1
                    [scenario_read; non_ascii_tag_read; scenario_read])
             [scenario_read] non_ascii_tag_read [scenario_read]
             UnicodeEncodeError header segs);
      [reflexivity | exact Hgood | reflexivity].
Defined.

(** X22: the table [convert] builds holds only its one reference, so in
    every segment it writes the mate reference id is 0, and the reference id
    is 0 for a record with an alignment, whatever reference the record names,
    and [-1] for a record without. *)
Theorem X22_convert_reference_ids (reference : Reference.t)
  (reads : list ReadAlignment.t) (header : SamConverter.Header)
  (segs : list AlignedSegment.t) :
  convert reference reads = ok (header, segs) ->
  Forall2 (fun read seg =>
             AlignedSegment.next_reference_id seg = 0
             /\ AlignedSegment.reference_id seg
                = if SamLine.is_None (alignment read) then -1 else 0)
    reads segs.
Proof.
  intros Hrun. apply convert_ok_iff in Hrun as [_ [d' Hrun]].
  apply convert_loop_per_read in Hrun as [Hall _].
  eapply Forall2_impl; [exact Hall|].
  intros read seg [d'' Hrs]. cbv beta.
  destruct (toAlignedSegment_fields _ _ _ _ Hrs)
    as (_ & _ & _ & _ & _ & _ & _ & Ha & m & _ & Hmid & _).
  split.
  - rewrite Hmid. apply converter_table_is_singleton.
  - destruct (alignment read) as [a|]; destruct Ha as (-> & _);
      [apply converter_table_is_singleton | reflexivity].
Qed.

Lemma X22_convert_reference_ids_witness :
  exists segs,
    convert chr1 [unknown_reference_read] = ok (SamConverter._getHeader chr1, segs)
    /\ Forall2 (fun read seg =>
                  AlignedSegment.next_reference_id seg = 0
                  /\ AlignedSegment.reference_id seg
                     = if SamLine.is_None (alignment read) then -1 else 0)
         [unknown_reference_read] segs.
Proof.
  destruct (convert chr1 [unknown_reference_read]) as [e|[header segs]]
    eqn:Hrun; [vm_compute in Hrun; discriminate|].
  assert (Hheader : header = SamConverter._getHeader chr1)
    by (vm_compute in Hrun; injection Hrun as <- _; reflexivity).
  subst header. exists segs. split; [reflexivity|].
  exact (X22_convert_reference_ids _ _ _ _ Hrun).
Defined.

End WholeRuns.

(** ** [SamConverter.convert] and its output file *)

Section OutputFile.

Import SamFlags ReadAlignment.

Lemma written_to_nil (f : AlignmentFile.t) : written_to f [] = f.
Proof. destruct f. unfold written_to. cbn. now rewrite app_nil_r. Qed.

Lemma written_to_cons (f : AlignmentFile.t) (seg : AlignedSegment.t)
  (segs : list AlignedSegment.t) :
  written_to (AlignmentFile.write seg f) segs = written_to f (seg :: segs).
Proof.
  unfold written_to, AlignmentFile.write. cbn. f_equal.
  now rewrite <- app_assoc.
Qed.

(** A loop that ends normally has written the segments of the run. *)
Lemma convert_write_loop_ok (reads : list ReadAlignment.t) :
  forall (d d' : gmap string Z) (segs : list AlignedSegment.t)
         (f : AlignmentFile.t),
    convert_loop reads d = ok (segs, d') ->
    convert_write_loop reads d f = (written_to f segs, None).
Proof.
  induction reads as [|read rest IH]; intros d d' segs f Hrun.
  - injection Hrun as <- <-. now rewrite written_to_nil.
  - rewrite convert_loop_cons in Hrun. cbn [convert_write_loop].
    destruct (SamLine.toAlignedSegment read d) as [e|[seg d1]];
      [discriminate|].
    destruct (convert_loop rest d1) as [e|[segs' d2]] eqn:Hrest;
      [discriminate|].
    injection Hrun as <- <-.
    now rewrite (IH d1 d2 segs' _ Hrest), written_to_cons.
Qed.

(** A loop that meets a record on which the transcoder raises stops
    there, with the segments of the records before it written. *)
Lemma convert_write_loop_stops (good : list ReadAlignment.t) :
  forall (bad : ReadAlignment.t) (rest : list ReadAlignment.t)
         (d d' : gmap string Z) (segs : list AlignedSegment.t)
         (f : AlignmentFile.t) (e : PyExc),
    convert_loop good d = ok (segs, d') ->
    SamLine.toAlignedSegment bad d = raise e ->
    convert_write_loop (good ++ bad :: rest) d f
    = (written_to f segs, Some e).
Proof.
  induction good as [|read good IH]; intros bad rest d d' segs f e Hrun Hbad.
  - injection Hrun as <- <-. cbn [app convert_write_loop].
    rewrite Hbad. unfold raise. now rewrite written_to_nil.
  - rewrite convert_loop_cons in Hrun. cbn [app convert_write_loop].
    destruct (SamLine.toAlignedSegment read d) as [e0|[seg d1]];
      [discriminate|].
    destruct (convert_loop good d1) as [e0|[segs' d2]] eqn:Hgood;
      [discriminate|].
    injection Hrun as <- <-.
    now rewrite (IH bad rest d1 d2 segs' _ e Hgood
                   (toAlignedSegment_raise_any bad d d1 e Hbad)),
      written_to_cons.
Qed.

(** X23: when the run over the records returns, [convert] has opened the
    file on the given name, or on ["-"] without one, in mode ["wb"] for
    binary output and ["wh"] otherwise, with the header of the reference;
    written the segments of the run in order; and closed the file. *)
Theorem X23_convert_file_normal_end (outputFileName : option string)
  (binaryOutput : bool) (reference : Reference.t)
  (reads : list ReadAlignment.t) (header : SamConverter.Header)
  (segs : list AlignedSegment.t) :
  convert reference reads = ok (header, segs) ->
  convert_file outputFileName binaryOutput reference reads
  = ({| AlignmentFile.fileString := default "-" outputFileName;
        AlignmentFile.flags := if binaryOutput then "wb" else "wh";
        AlignmentFile.header := SamConverter._getHeader reference;
        AlignmentFile.written := segs;
        AlignmentFile.closed := true |}, None).
Proof.
  intros Hrun. apply convert_ok_iff in Hrun as [_ [d' Hrun]].
  unfold convert_file. cbv zeta.
  rewrite (convert_write_loop_ok reads _ d' segs _ Hrun).
  destruct outputFileName; reflexivity.
Qed.

Lemma X23_convert_file_normal_end_witness :
  exists segs,
    convert chr1 [scenario_read] = ok (SamConverter._getHeader chr1, segs)
    /\ convert_file None true chr1 [scenario_read]
       = ({| AlignmentFile.fileString := "-";
             AlignmentFile.flags := "wb";
             AlignmentFile.header := SamConverter._getHeader chr1;
             AlignmentFile.written := segs;
             AlignmentFile.closed := true |}, None).
Proof.
  destruct (convert chr1 [scenario_read]) as [e|[header segs]] eqn:Hrun;
    [vm_compute in Hrun; discriminate|].
  assert (Hheader : header = SamConverter._getHeader chr1)
    by (vm_compute in Hrun; injection Hrun as <- _; reflexivity).
  subst header. exists segs. split; [reflexivity|].
  exact (X23_convert_file_normal_end None true chr1 [scenario_read] _ segs
           Hrun).
Defined.

(** X24: when the run over the records before some record returns and the
    transcoder raises on that record, the file holds the segments of the
    records before it, nothing of the records after it, and is left open:
    the exception leaves [convert] before [close()]. *)
Theorem X24_convert_file_stops_at_failure (outputFileName : option string)
  (binaryOutput : bool) (reference : Reference.t)
  (good : list ReadAlignment.t) (bad : ReadAlignment.t)
  (rest : list ReadAlignment.t) (e : PyExc)
  (header : SamConverter.Header) (segs : list AlignedSegment.t) :
  convert reference good = ok (header, segs) ->
  SamLine.toAlignedSegment bad
    (SamConverter._getTargetIds (SamConverter._getHeader reference))
  = raise e ->
  convert_file outputFileName binaryOutput reference (good ++ bad :: rest)
  = ({| AlignmentFile.fileString := default "-" outputFileName;
        AlignmentFile.flags := if binaryOutput then "wb" else "wh";
        AlignmentFile.header := SamConverter._getHeader reference;
        AlignmentFile.written := segs;
        AlignmentFile.closed := false |}, Some e).
Proof.
  intros Hgood Hbad. apply convert_ok_iff in Hgood as [_ [d' Hgood]].
  unfold convert_file. cbv zeta.
  rewrite (convert_write_loop_stops good bad rest _ d' segs _ e Hgood Hbad).
  destruct outputFileName; reflexivity.
Qed.

Lemma X24_convert_file_stops_at_failure_witness :
  exists segs,
    convert chr1 [scenario_read] = ok (SamConverter._getHeader chr1, segs)
    /\ convert_file (Some "out.sam") false chr1
         [scenario_read; non_ascii_tag_read; scenario_read]
       = ({| AlignmentFile.fileString := "out.sam";
             AlignmentFile.flags := "wh";
             AlignmentFile.header := SamConverter._getHeader chr1;
             AlignmentFile.written := segs;
             AlignmentFile.closed := false |}, Some UnicodeEncodeError).
Proof.
  destruct (convert chr1 [scenario_read]) as [e|[header segs]] eqn:Hrun;
    [vm_compute in Hrun; discriminate|].
  assert (Hheader : header = SamConverter._getHeader chr1)
    by (vm_compute in Hrun; injection Hrun as <- _; reflexivity).
  subst header. exists segs. split; [reflexivity|].
  exact (X24_convert_file_stops_at_failure (Some "out.sam") false chr1
           [scenario_read] non_ascii_tag_read [scenario_read]
           UnicodeEncodeError _ segs Hrun eq_refl).
Defined.

End OutputFile.

(** ** [VcfConverter]: what the stub prints *)

Section VcfStub.

Context {Metadata Variant : Type}.

Local Abbreviation Printed := (VcfConverter.Printed Metadata Variant).


End VcfStub.
